(** * Zeno frontend utilities: column identity, metric range, chart template

    A shallow embedding of the TypeScript sources

      - [frontend/src/util/util.ts]   ([getInitialData], [updateTab],
        [columnHash], [getMetricRange]),
      - [frontend/src/report/beeswarm-chart/vegaSpec-beeswarm.ts]
        ([generateSpec]),
      - the ambient interface declarations ([ZenoColumn], [ResultKey],
        [FilterPredicate]),

    together with the properties the specification states about them. *)

From Stdlib Require Import ZArith List Bool Ascii String Lia.
From Stdlib Require Import Floats.SpecFloat.
Import ListNotations.

Set Warnings "-register-all,-notation-for-abbreviation".

Local Open Scope list_scope.
Local Open Scope string_scope.

(* ================================================================== *)
(** * A state monad for the mutable locals and arguments of a function *)
(* ================================================================== *)

Module St.
Section Monad.
Context {S : Type}.

Definition M (A : Type) : Type := S -> A * S.

Definition ret {A} (a : A) : M A := fun s => (a, s).

Definition bind {A B} (c : M A) (k : A -> M B) : M B :=
  fun s => let (a, s') := c s in k a s'.

(** Read a component of the store. *)
Definition gets {A} (proj : S -> A) : M A := fun s => (proj s, s).

(** Overwrite the store through [upd]. *)
Definition modify (upd : S -> S) : M unit := fun s => (tt, upd s).

(** JavaScript's [Array.prototype.forEach]: the callback runs on the
    elements in index order, for its effect only. *)
Fixpoint forEach {A} (arr : list A) (f : A -> M unit) : M unit :=
  match arr with
  | [] => ret tt
  | x :: rest => bind (f x) (fun _ => forEach rest f)
  end.
End Monad.
Arguments M : clear implicits.
End St.

Declare Scope js_scope.
Delimit Scope js_scope with js.
Notation "x <- c ;; k" := (St.bind c (fun x => k))
  (at level 61, c at next level, right associativity) : js_scope.
Notation "c ;; k" := (St.bind c (fun _ => k))
  (at level 61, right associativity) : js_scope.

(* ================================================================== *)
(** * JavaScript numbers *)
(* ================================================================== *)

(** A JavaScript [number] is an IEEE 754 binary64 value.  [spec_float]
    is the Standard Library's inductive description of such values;
    finite values are kept in canonical form (53-bit mantissa). *)
Module Number.

Definition number : Type := spec_float.

Definition prec : Z := 53.
Definition emax : Z := 1024.

Definition Infinity : number := S754_infinity false.
Definition NegInfinity : number := S754_infinity true.
Definition NaN : number := S754_nan.
Definition pos_zero : number := S754_zero false.
Definition neg_zero : number := S754_zero true.

(** The number denoted by an integer literal. *)
Definition of_Z (z : Z) : number := binary_normalize prec emax z 0 false.

(** The number denoted by the decimal literal [n / 10^k], correctly
    rounded, as the lexer does. *)
Definition of_decimal (n : Z) (k : nat) : number :=
  SFdiv prec emax (of_Z n) (of_Z (10 ^ Z.of_nat k)).

Definition is_nan (x : number) : bool :=
  match x with S754_nan => true | _ => false end.

Definition is_pos_zero (x : number) : bool :=
  match x with S754_zero false => true | _ => false end.

Definition is_neg_zero (x : number) : bool :=
  match x with S754_zero true => true | _ => false end.

(** [Math.min(a, b)] (ECMA-262, 21.3.2.25): NaN if either argument is
    NaN; -0 is smaller than +0; otherwise the smaller argument. *)
Definition Math_min (a b : number) : number :=
  if is_nan a || is_nan b then NaN
  else if is_neg_zero b && is_pos_zero a then b
  else if SFltb b a then b
  else a.

(** [Math.max(a, b)] (ECMA-262, 21.3.2.24): NaN if either argument is
    NaN; +0 is larger than -0; otherwise the larger argument. *)
Definition Math_max (a b : number) : number :=
  if is_nan a || is_nan b then NaN
  else if is_pos_zero b && is_neg_zero a then b
  else if SFltb a b then b
  else a.

(** A cell of a result matrix: a number or [null]. *)
Definition cell : Type := option number.
Definition null : cell := None.

(** [ToNumber] as applied by [Math.min] / [Math.max] to their
    arguments: [null] becomes [+0]. *)
Definition ToNumber (c : cell) : number :=
  match c with
  | Some x => x
  | None => pos_zero
  end.

(** [n !== null] *)
Definition not_null (c : cell) : bool :=
  match c with
  | Some _ => true
  | None => false
  end.

End Number.
Import Number.

(* ================================================================== *)
(** * [getMetricRange] (util.ts, lines 60-76) *)
(* ================================================================== *)

Module MetricRange.

(** The store [getMetricRange] runs in: the array its parameter [res]
    refers to (shared with the caller), and its two locals. *)
Record Frame : Type := mkFrame {
  res : list (list cell);
  range : number * number;
  allNull : bool
}.

Definition set_range0 (x : number) (f : Frame) : Frame :=
  mkFrame (res f) (x, snd (range f)) (allNull f).
Definition set_range1 (x : number) (f : Frame) : Frame :=
  mkFrame (res f) (fst (range f), x) (allNull f).
Definition set_allNull (b : bool) (f : Frame) : Frame :=
  mkFrame (res f) (range f) b.

Local Open Scope js_scope.

(** The inner arrow function, lines 64-70. *)
Definition visit (n : cell) : St.M Frame unit :=
  (if not_null n then St.modify (set_allNull false) else St.ret tt) ;;
  r <- St.gets range ;;
  St.modify (set_range0 (Math_min (fst r) (ToNumber n))) ;;
  r <- St.gets range ;;
  St.modify (set_range1 (Math_max (snd r) (ToNumber n))).

(** The function body, lines 61-75. *)
Definition body : St.M Frame (number * number) :=
  m <- St.gets res ;;
  St.forEach m (fun arr => St.forEach arr visit) ;;
  nulls <- St.gets allNull ;;
  if (nulls : bool) then St.ret (Infinity, NegInfinity)
  else St.gets range.

(** Entry: [range] and [allNull] are initialised at lines 61-62. *)
Definition enter (m : list (list cell)) : Frame :=
  mkFrame m (Infinity, NegInfinity) true.

Definition getMetricRange (m : list (list cell)) : number * number :=
  fst (body (enter m)).

(** The array [res] refers to, as the caller finds it after the call. *)
Definition res_after (m : list (list cell)) : list (list cell) :=
  res (snd (body (enter m))).

(** Every cell of the matrix is [null]. *)
Definition all_null (m : list (list cell)) : Prop :=
  forall arr, In arr m -> forall n, In n arr -> n = null.

(** Some cell of the matrix is not [null]. *)
Definition has_value (m : list (list cell)) : Prop :=
  exists arr x, In arr m /\ In (Some x) arr.

(** What one visit does to the pair [range]. *)
Definition widen (r : number * number) (n : cell) : number * number :=
  (Math_min (fst r) (ToNumber n), Math_max (snd r) (ToNumber n)).

(** What the visits of one row do to it. *)
Definition widen_row (r : number * number) (arr : list cell)
  : number * number :=
  fold_left widen arr r.

(** [n === null] *)
Definition is_null (n : cell) : bool := negb (not_null n).

(** The matrix with [0] written in place of every [null]. *)
Definition zeroed (m : list (list cell)) : list (list cell) :=
  map (map (fun n => Some (ToNumber n))) m.

End MetricRange.
Import MetricRange.

(* ================================================================== *)
(** * [ZenoColumn] and [columnHash] (util.ts, lines 51-57) *)
(* ================================================================== *)

Module Column.

(** Modelled from the spec: the enum [ZenoColumnType] is imported from
    [../zenoservice], which is not among the sources.  The spec gives
    it as [enum{METADATA, OUTPUT, EMBEDDING, ...}] and [columnHash]
    concatenates its members with strings, so it is a string enum:
    each member is modelled with its name as its value. *)
Inductive ZenoColumnType : Type :=
| METADATA
| OUTPUT
| EMBEDDING.

(** The run-time value of a member. *)
Definition value (t : ZenoColumnType) : string :=
  match t with
  | METADATA => "METADATA"
  | OUTPUT => "OUTPUT"
  | EMBEDDING => "EMBEDDING"
  end.

(** [a === b] on members of the enum. *)
Definition strict_eq (a b : ZenoColumnType) : bool :=
  String.eqb (value a) (value b).

(** [interface ZenoColumn] *)
Record ZenoColumn : Type := mkColumn {
  columnType : ZenoColumnType;
  name : string;
  model : string;
  transform : string
}.

(** Truthiness of a string in a condition: the empty string is falsy. *)
Definition truthy (s : string) : bool := negb (String.eqb s "").

Local Open Scope js_scope.

(** The body of [columnHash], run in a store that holds the object its
    parameter [col] refers to. *)
Definition body : St.M ZenoColumn string :=
  t <- St.gets columnType ;;
  prefix <- (if strict_eq t METADATA then St.ret ""
             else t' <- St.gets columnType ;; St.ret (value t')) ;;
  n <- St.gets name ;;
  m <- St.gets model ;;
  suffix <- (if truthy m then St.gets model else St.ret "") ;;
  St.ret (prefix ++ n ++ suffix).

Definition columnHash (col : ZenoColumn) : string := fst (body col).

(** The object [col] refers to, as the caller finds it after the call. *)
Definition col_after (col : ZenoColumn) : ZenoColumn := snd (body col).

(** The spec's formula, in its own words:
    [(columnType == METADATA ? "" : columnType) + name + (model || "")]. *)
Definition js_or (a b : string) : string := if truthy a then a else b.

Definition columnHash_spec (col : ZenoColumn) : string :=
  (if strict_eq (columnType col) METADATA then "" else value (columnType col))
  ++ name col ++ js_or (model col) "".

(** The spec's identity rule: the triple
    (columnType-normalized, name, model), where normalisation erases
    the column type METADATA. *)
Definition normalizedType (col : ZenoColumn) : string :=
  match columnType col with
  | METADATA => ""
  | t => value t
  end.

Definition identical (c1 c2 : ZenoColumn) : Prop :=
  normalizedType c1 = normalizedType c2 /\
  name c1 = name c2 /\
  model c1 = model c2.

(** Two columns agree on at least two components of that triple. *)
Definition agree_on_two (c1 c2 : ZenoColumn) : Prop :=
  (normalizedType c1 = normalizedType c2 /\ name c1 = name c2)
  \/ (normalizedType c1 = normalizedType c2 /\ model c1 = model c2)
  \/ (name c1 = name c2 /\ model c1 = model c2).

End Column.

(* ================================================================== *)
(** * [ResultKey] and its serialisation *)
(* ================================================================== *)

Module Key.



Section Serialisation.
(** The delimiter the serialisation joins the fields with. *)
Variable delimiter : ascii.


End Serialisation.



End Key.

(* ================================================================== *)
(** * [FilterPredicate] and the evaluation of predicate sequences *)
(* ================================================================== *)

Module Filter.

(** [interface FilterPredicate] *)
Record FilterPredicate : Type := mkPredicate {
  column : Column.ZenoColumn;
  operation : string;
  value : string;
  join : string;
  groupIndicator : option string
}.

(** Modelled from the spec: the failures of predicate evaluation named
    in its error taxonomy. *)
Inductive Error : Type :=
| InvalidOperation
| UnbalancedGroup.

Inductive Result (A : Type) : Type :=
| Ok (a : A)
| Fail (e : Error).
Arguments Ok {A} a.
Arguments Fail {A} e.

Definition andThen {A B} (r : Result A) (k : A -> Result B) : Result B :=
  match r with
  | Ok a => k a
  | Fail e => Fail e
  end.

(** What [groupIndicator] says: ['start'], ['end'], or nothing. *)
Inductive Marker : Type := GroupStart | GroupEnd | NoMarker.

Definition marker (p : FilterPredicate) : Marker :=
  match groupIndicator p with
  | Some s =>
      if String.eqb s "start" then GroupStart
      else if String.eqb s "end" then GroupEnd
      else NoMarker
  | None => NoMarker
  end.

(** Modelled from the spec: the well-formedness of group markers, "every
    [start] has a matching later [end]".  [nesting d ps] is the number
    of groups left open after [ps] when [d] were open before, if no
    [end] comes without an open group. *)
Fixpoint nesting (d : nat) (ps : list FilterPredicate) : option nat :=
  match ps with
  | [] => Some d
  | p :: rest =>
      match marker p with
      | GroupStart => nesting (S d) rest
      | GroupEnd =>
          match d with
          | O => None
          | S d' => nesting d' rest
          end
      | NoMarker => nesting d rest
      end
  end.

Definition balanced (ps : list FilterPredicate) : bool :=
  match nesting 0 ps with
  | Some O => true
  | _ => false
  end.

(** The numbers of [start] and of [end] markers in a sequence. *)
Definition starts (ps : list FilterPredicate) : nat :=
  List.length
    (filter (fun p => match marker p with GroupStart => true | _ => false end)
       ps).

Definition ends (ps : list FilterPredicate) : nat :=
  List.length
    (filter (fun p => match marker p with GroupEnd => true | _ => false end)
       ps).

(** Modelled from the spec: the validation of the grouping, which fails
    with [UnbalancedGroup] "if start/end counts or nesting are
    inconsistent". *)
Definition validateGroups (ps : list FilterPredicate) : Result unit :=
  if balanced ps then Ok tt else Fail UnbalancedGroup.

(** Modelled from the spec: the "stack of open groups".  A group whose
    evaluation is suspended while an inner group is open: the value
    accumulated so far, if any, and the join that will attach the inner
    group to it. *)
Record Suspended : Type := mkSuspended {
  outer : option bool;
  pending : string
}.

(** The evaluator's state: the accumulator of the innermost open
    group and the stack of suspended ones. *)
Record Eval : Type := mkEval {
  acc : option bool;
  opened : list Suspended
}.

Section Engine.
(** A row of the dataset, and the evaluation of one comparison on
    it; both belong to collaborators outside the sources. *)
Variable Row : Type.
Variable evaluatePredicate : FilterPredicate -> Row -> Result bool.
(** The spec fixes the joins AND and OR; what any other join string
    does between two operands is left open. *)
Variable otherJoin : string -> bool -> bool -> bool.

(** Every comparison of [ps] evaluates on [row]. *)
Definition evaluable (ps : list FilterPredicate) (row : Row) : Prop :=
  forall p, In p ps -> exists v, evaluatePredicate p row = Ok v.

(** Modelled from the spec: the joins AND and OR. *)
Definition applyJoin (j : string) (l r : bool) : bool :=
  if String.eqb j "AND" then l && r
  else if String.eqb j "OR" then l || r
  else otherJoin j l r.

(** Modelled from the spec: joining [v] to an accumulator; "the first
    predicate's join is ignored (no left operand)". *)
Definition accumulate (a : option bool) (j : string) (v : bool) : bool :=
  match a with
  | None => v
  | Some l => applyJoin j l v
  end.

(** Modelled from the spec: one predicate of the fold, whose comparison
    evaluated to [v].  On [start] the accumulator so far is suspended
    together with the predicate's join and a new one is begun; on [end]
    the group's value is joined to the suspended accumulator; an [end]
    with no open group is an error. *)
Definition step (p : FilterPredicate) (v : bool) (st : Eval) : Result Eval :=
  match marker p with
  | GroupStart =>
      Ok (mkEval (Some v) (mkSuspended (acc st) (join p) :: opened st))
  | NoMarker =>
      Ok (mkEval (Some (accumulate (acc st) (join p) v)) (opened st))
  | GroupEnd =>
      match opened st with
      | [] => Fail UnbalancedGroup
      | g :: gs =>
          let inner := accumulate (acc st) (join p) v in
          Ok (mkEval (Some (accumulate (outer g) (pending g) inner)) gs)
      end
  end.

(** Modelled from the spec: the left-to-right fold; a comparison that
    fails ends it with that failure. *)
Fixpoint run (ps : list FilterPredicate) (row : Row) (st : Eval)
  : Result Eval :=
  match ps with
  | [] => Ok st
  | p :: rest =>
      andThen (evaluatePredicate p row) (fun v =>
      andThen (step p v st) (fun st' =>
      run rest row st'))
  end.

(** Modelled from the spec: the fold over the whole sequence, from the
    empty accumulator and no open group; a group left open at the end
    is an error, and the empty list matches every row. *)
Definition evaluateFold (ps : list FilterPredicate) (row : Row)
  : Result bool :=
  andThen (run ps row (mkEval None [])) (fun st =>
  match opened st with
  | [] => Ok (match acc st with Some b => b | None => true end)
  | _ :: _ => Fail UnbalancedGroup
  end).

(** Modelled from the spec: [evaluateExpression] is not among the
    sources, only the interface [FilterPredicate] is.  The spec:
    malformed grouping is rejected eagerly, "at construction", so that
    "malformed slices never reach evaluation": the markers are checked
    before any comparison is evaluated.  Then a left-to-right fold that
    maintains a stack of open groups; on [start] it pushes a new
    sub-accumulator, on [end] it pops it and combines it with the parent
    using the pending join; without grouping, joins apply strictly left
    to right; the empty list matches every row. *)
Definition evaluateExpression (ps : list FilterPredicate) (row : Row)
  : Result bool :=
  andThen (validateGroups ps) (fun _ => evaluateFold ps row).
End Engine.

End Filter.

(* ================================================================== *)
(** * [generateSpec] (vegaSpec-beeswarm.ts) *)
(* ================================================================== *)

Module Vega.

(** JavaScript values, as far as object literals build them. *)
Inductive Value : Type :=
| VUndefined
| VNull
| VBool (b : bool)
| VNum (x : number)
| VStr (s : string)
| VArr (items : list Value)
| VObj (props : list (string * Value)).

(** A member access: [.name] or [[i]]. *)
Inductive Key : Type :=
| Field (name : string)
| Index (i : nat).

Fixpoint get_prop (n : string) (ps : list (string * Value)) : option Value :=
  match ps with
  | [] => None
  | (k, v) :: rest => if String.eqb k n then Some v else get_prop n rest
  end.

(** Setting a property keeps its place among the others if it exists
    and adds it last otherwise. *)
Fixpoint set_prop (n : string) (v : Value) (ps : list (string * Value))
  : list (string * Value) :=
  match ps with
  | [] => [(n, v)]
  | (k, w) :: rest =>
      if String.eqb k n then (k, v) :: rest else (k, w) :: set_prop n v rest
  end.

(** Writing element [i] of an array: in place, or appended when [i]
    is the length.  A write further out would leave holes, which this
    model of arrays does not have: [None]. *)
Fixpoint set_item (i : nat) (v : Value) (l : list Value) : option (list Value) :=
  match i, l with
  | O, [] => Some [v]
  | O, _ :: rest => Some (v :: rest)
  | S _, [] => None
  | S i', x :: rest =>
      match set_item i' v rest with
      | Some rest' => Some (x :: rest')
      | None => None
      end
  end.

(** The own member [k] of a value, if it has one. *)
Definition member (k : Key) (t : Value) : option Value :=
  match k, t with
  | Field n, VObj ps => get_prop n ps
  | Index i, VArr l => nth_error l i
  | _, _ => None
  end.

(** [t.k = v] on an object or an array; on anything else the
    assignment does not go through. *)
Definition set_member (k : Key) (v : Value) (t : Value) : option Value :=
  match k, t with
  | Field n, VObj ps => Some (VObj (set_prop n v ps))
  | Index i, VArr l =>
      match set_item i v l with
      | Some l' => Some (VArr l')
      | None => None
      end
  | _, _ => None
  end.

(** Reading along a path of member accesses. *)
Fixpoint lookup (p : list Key) (t : Value) : option Value :=
  match p with
  | [] => Some t
  | k :: p' =>
      match member k t with
      | Some c => lookup p' c
      | None => None
      end
  end.

(** The assignment [t.k1.k2...kn = v]: the members [k1 .. k(n-1)] are
    read, and [kn] is written on the value they lead to. *)
Fixpoint assign (p : list Key) (v : Value) (t : Value) : option Value :=
  match p with
  | [] => None
  | k :: p' =>
      match p' with
      | [] => set_member k v t
      | _ :: _ =>
          match member k t with
          | Some c =>
              match assign p' v c with
              | Some c' => set_member k c' t
              | None => None
              end
          | None => None
          end
      end
  end.

Definition str (s : string) : Value := VStr s.
Definition int (z : Z) : Value := VNum (of_Z z).
Definition dec (n : Z) (k : nat) : Value := VNum (of_decimal n k).
Definition obj (ps : list (string * Value)) : Value := VObj ps.
Definition arr (l : list Value) : Value := VArr l.

(** The object literal of lines 3-108. *)
Definition literal : Value :=
  obj [
    ("$schema", str "https://vega.github.io/schema/vega/v5.json");
    ("description",
       str "A beeswarm chart example that uses a force-directed layout to group items by category.");
    ("width", int 600);
    ("height", int 100);
    ("padding", obj [("left", int 5); ("right", int 5);
                     ("top", int 0); ("bottom", int 20)]);
    ("autosize", str "pad");
    ("signals", arr [
       obj [("name", str "cx"); ("update", str "width / 2")];
       obj [("name", str "cy"); ("update", str "height / 2")];
       obj [("name", str "radius"); ("value", int 10)];
       obj [("name", str "collide"); ("value", int 1)];
       obj [("name", str "gravityX"); ("value", dec 2 1)];
       obj [("name", str "gravityY"); ("value", dec 1 1)];
       obj [("name", str "static"); ("value", VBool true)]
    ]);
    ("data", arr [ obj [("name", str "table")] ]);
    ("scales", arr [
       obj [("name", str "xscale");
            ("domain", obj [("data", str "table"); ("field", str "metric")]);
            ("range", str "width");
            ("nice", VBool true);
            ("zero", VBool false)];
       obj [("name", str "sizescale");
            ("domain", obj [("data", str "table"); ("field", str "size")]);
            ("range", arr [int 80; int 800])]
    ]);
    ("axes", arr [
       obj [("title", str "");
            ("orient", str "bottom");
            ("scale", str "xscale")]
    ]);
    ("marks", arr [
       obj [("name", str "nodes");
            ("type", str "symbol");
            ("from", obj [("data", str "table")]);
            ("encode", obj [
               ("enter", obj [
                  ("fill", obj [("value", str "purple")]);
                  ("xfocus", obj [("scale", str "xscale");
                                  ("field", str "metric");
                                  ("band", dec 5 1)]);
                  ("yfocus", obj [("signal", str "cy")])
               ]);
               ("update", obj [
                  ("size", obj [("scale", str "sizescale");
                                ("field", str "size")]);
                  ("stroke", obj [("value", str "white")]);
                  ("strokeWidth", obj [("value", int 1)]);
                  ("zindex", obj [("value", int 0)])
               ]);
               ("hover", obj [
                  ("stroke", obj [("value", str "purple")]);
                  ("strokeWidth", obj [("value", int 3)]);
                  ("zindex", obj [("value", int 1)]);
                  ("tooltip", obj [
                     ("signal",
                        str "{'name': datum.sli_name, 'size': datum.size, 'metric': datum.metric}")
                  ])
               ])
            ]);
            ("transform", arr [
               obj [("type", str "force");
                    ("iterations", int 300);
                    ("static", obj [("signal", str "static")]);
                    ("forces", arr [
                       obj [("force", str "collide");
                            ("iterations", obj [("signal", str "collide")]);
                            ("radius", obj [("signal", str "radius")])];
                       obj [("force", str "x"); ("x", str "xfocus");
                            ("strength", obj [("signal", str "gravityX")])];
                       obj [("force", str "y"); ("y", str "yfocus");
                            ("strength", obj [("signal", str "gravityY")])]
                    ])]
            ])]
    ])
  ].

(** The place [spec.axes[0].title]. *)
Definition titlePath : list Key := [Field "axes"; Index 0; Field "title"].

(** [generateSpec(metric)]: the literal, then
    [spec.axes[0].title = metric] (line 110), then the result.
    [None] would be an assignment that does not go through. *)
Definition generateSpec (metric : Value) : option Value :=
  assign titlePath metric literal.

(** Two paths name unrelated places when neither leads through the
    other. *)
Fixpoint apart (p q : list Key) : Prop :=
  match p, q with
  | k :: p', k' :: q' => k <> k' \/ (k = k' /\ apart p' q')
  | _, _ => False
  end.

End Vega.

(* ================================================================== *)
(** * Orders and shapes of result matrices *)
(* ================================================================== *)

Module MatrixShape.

(** [x <= y] on numbers, as [<=] compares them (false on NaN). *)
Definition leq (x y : number) : Prop := SFleb x y = true.

(** No cell of the matrix is NaN. *)
Definition no_nan (m : list (list cell)) : Prop :=
  forall arr, In arr m -> ~ In (Some NaN) arr.

(** No cell of the matrix is [null]. *)
Definition no_null (m : list (list cell)) : Prop :=
  forall arr, In arr m -> ~ In null arr.

(** [x] is a cell of the matrix. *)
Definition cell_of (m : list (list cell)) (x : number) : Prop :=
  exists arr, In arr m /\ In (Some x) arr.

End MatrixShape.

(* ================================================================== *)
(** * Plain objects and [Map]s keyed by strings *)
(* ================================================================== *)

Module Collections.
Section Keyed.
Context {V : Type}.

(** A plain object as the list of its own properties, in the order
    [Object.entries] enumerates them; no key occurs twice. *)
Definition Obj : Type := list (string * V).

Definition wellFormed (o : Obj) : Prop := NoDup (List.map fst o).

(** [o[k]] for an own property, if there is one. *)
Fixpoint Obj_get (k : string) (o : Obj) : option V :=
  match o with
  | [] => None
  | (k', v) :: rest => if String.eqb k' k then Some v else Obj_get k rest
  end.

(** [Object.entries(o)] *)
Definition Object_entries (o : Obj) : list (string * V) := o.

(** A [Map] as the list of its entries in insertion order. *)
Definition JsMap : Type := list (string * V).

(** [m.get(k)] *)
Fixpoint Map_get (k : string) (m : JsMap) : option V :=
  match m with
  | [] => None
  | (k', v) :: rest => if String.eqb k' k then Some v else Map_get k rest
  end.

(** [m.set(k, v)]: an existing key keeps its place and takes the new
    value, a new key is added last. *)
Fixpoint Map_set (k : string) (v : V) (m : JsMap) : JsMap :=
  match m with
  | [] => [(k, v)]
  | (k', w) :: rest =>
      if String.eqb k' k then (k', v) :: rest else (k', w) :: Map_set k v rest
  end.

(** [new Map(entries)]: the entries are set one after the other on an
    empty map. *)
Definition Map_new (entries : list (string * V)) : JsMap :=
  fold_left (fun m kv => Map_set (fst kv) (snd kv) m) entries [].

End Keyed.
Arguments Obj : clear implicits.
Arguments JsMap : clear implicits.
End Collections.

(* ================================================================== *)
(** * The service the stores are filled from *)
(* ================================================================== *)

Module Service.

(** The types of what the service returns and the stores hold.  They
    are declared in [../zenoservice] and [../stores], outside the
    sources, and are left open here; [samples] is the field
    [sets.samples] of the settings. *)
Record Schema : Type := mkSchema {
  ZenoSettings : Type;
  Folders : Type;
  SliceT : Type;
  Reports : Type;
  TagT : Type;
  samples : ZenoSettings -> number
}.

(** What [getInitialInfo] resolves to, as far as [getInitialData]
    reads it. *)
Record InitialInfo (sch : Schema) : Type := mkInfo {
  models : list string;
  metrics : list string;
  folders : Folders sch
}.
Arguments models {sch}.
Arguments metrics {sch}.
Arguments folders {sch}.

(** The five calls [getInitialData] awaits, each with what its promise
    settles to: [Some] a value when it is fulfilled, [None] when it is
    rejected. *)
Record ZenoService (sch : Schema) : Type := mkService {
  getSettings : option (ZenoSettings sch);
  getInitialInfo : option (InitialInfo sch);
  getSlices : option (Collections.Obj (SliceT sch));
  getReports : option (Reports sch);
  getTags : option (Collections.Obj (TagT sch))
}.
Arguments getSettings {sch}.
Arguments getInitialInfo {sch}.
Arguments getSlices {sch}.
Arguments getReports {sch}.
Arguments getTags {sch}.

End Service.

(* ================================================================== *)
(** * [updateTab] and [getInitialData] (util.ts, lines 17-49) *)
(* ================================================================== *)

Module Util.
Section Stores.
Variable sch : Service.Schema.

(** What the two functions write to: the string last assigned to
    [window.location.hash], and the value of each store imported from
    [../stores]. *)
Record World : Type := mkWorld {
  location_hash : string;
  folders : Service.Folders sch;
  metric : string;
  metrics : list string;
  model : string;
  models : list string;
  ready : bool;
  reports : Service.Reports sch;
  rowsPerPage : number;
  settings : Service.ZenoSettings sch;
  slices : list (string * Service.SliceT sch);
  tab : string;
  tags : list (string * Service.TagT sch)
}.

Definition set_location_hash (x : string) (w : World) : World :=
  mkWorld x (folders w) (metric w) (metrics w) (model w) (models w)
    (ready w) (reports w) (rowsPerPage w) (settings w) (slices w) (tab w)
    (tags w).
Definition set_folders (x : Service.Folders sch) (w : World) : World :=
  mkWorld (location_hash w) x (metric w) (metrics w) (model w) (models w)
    (ready w) (reports w) (rowsPerPage w) (settings w) (slices w) (tab w)
    (tags w).
Definition set_metric (x : string) (w : World) : World :=
  mkWorld (location_hash w) (folders w) x (metrics w) (model w) (models w)
    (ready w) (reports w) (rowsPerPage w) (settings w) (slices w) (tab w)
    (tags w).
Definition set_metrics (x : list string) (w : World) : World :=
  mkWorld (location_hash w) (folders w) (metric w) x (model w) (models w)
    (ready w) (reports w) (rowsPerPage w) (settings w) (slices w) (tab w)
    (tags w).
Definition set_model (x : string) (w : World) : World :=
  mkWorld (location_hash w) (folders w) (metric w) (metrics w) x (models w)
    (ready w) (reports w) (rowsPerPage w) (settings w) (slices w) (tab w)
    (tags w).
Definition set_models (x : list string) (w : World) : World :=
  mkWorld (location_hash w) (folders w) (metric w) (metrics w) (model w) x
    (ready w) (reports w) (rowsPerPage w) (settings w) (slices w) (tab w)
    (tags w).
Definition set_ready (x : bool) (w : World) : World :=
  mkWorld (location_hash w) (folders w) (metric w) (metrics w) (model w)
    (models w) x (reports w) (rowsPerPage w) (settings w) (slices w) (tab w)
    (tags w).
Definition set_reports (x : Service.Reports sch) (w : World) : World :=
  mkWorld (location_hash w) (folders w) (metric w) (metrics w) (model w)
    (models w) (ready w) x (rowsPerPage w) (settings w) (slices w) (tab w)
    (tags w).
Definition set_rowsPerPage (x : number) (w : World) : World :=
  mkWorld (location_hash w) (folders w) (metric w) (metrics w) (model w)
    (models w) (ready w) (reports w) x (settings w) (slices w) (tab w)
    (tags w).
Definition set_settings (x : Service.ZenoSettings sch) (w : World) : World :=
  mkWorld (location_hash w) (folders w) (metric w) (metrics w) (model w)
    (models w) (ready w) (reports w) (rowsPerPage w) x (slices w) (tab w)
    (tags w).
Definition set_slices (x : list (string * Service.SliceT sch)) (w : World) : World :=
  mkWorld (location_hash w) (folders w) (metric w) (metrics w) (model w)
    (models w) (ready w) (reports w) (rowsPerPage w) (settings w) x (tab w)
    (tags w).
Definition set_tab (x : string) (w : World) : World :=
  mkWorld (location_hash w) (folders w) (metric w) (metrics w) (model w)
    (models w) (ready w) (reports w) (rowsPerPage w) (settings w)
    (slices w) x (tags w).
Definition set_tags (x : list (string * Service.TagT sch)) (w : World) : World :=
  mkWorld (location_hash w) (folders w) (metric w) (metrics w) (model w)
    (models w) (ready w) (reports w) (rowsPerPage w) (settings w) (slices w)
    (tab w) x.

Local Open Scope js_scope.

(** [updateTab(t)], lines 42-49. *)
Definition updateTab (t : string) : St.M World unit :=
  (if String.eqb t "home" then St.modify (set_location_hash "")
   else St.modify (set_location_hash ("#/" ++ t ++ "/"))) ;;
  St.modify (set_tab t).

(** [await p]: the rest of the function runs on the value [p] is
    fulfilled with; when [p] is rejected the function stops and its own
    promise is rejected ([false]).  Nothing else is taken to write the
    stores while the function waits. *)
Definition await {A} (p : option A) (k : A -> St.M World bool)
  : St.M World bool :=
  match p with
  | Some a => k a
  | None => St.ret false
  end.

(** [a.length > 0 ? a[0] : ""] *)
Definition first_or_empty (a : list string) : string :=
  match a with
  | [] => ""
  | x :: _ => x
  end.

(** [getInitialData()], lines 17-40; [true] when its promise is
    fulfilled. *)
Definition getInitialData (svc : Service.ZenoService sch) : St.M World bool :=
  await (Service.getSettings svc) (fun sets =>
  St.modify (set_settings sets) ;;
  St.modify (set_rowsPerPage (Service.samples sch sets)) ;;
  await (Service.getInitialInfo svc) (fun inits =>
  St.modify (set_models (Service.models inits)) ;;
  St.modify (set_metrics (Service.metrics inits)) ;;
  St.modify (set_folders (Service.folders inits)) ;;
  St.modify (set_model (first_or_empty (Service.models inits))) ;;
  St.modify (set_metric (first_or_empty (Service.metrics inits))) ;;
  await (Service.getSlices svc) (fun slicesRes =>
  St.modify (set_slices
               (Collections.Map_new (Collections.Object_entries slicesRes))) ;;
  await (Service.getReports svc) (fun reportsRes =>
  St.modify (set_reports reportsRes) ;;
  await (Service.getTags svc) (fun tagsRes =>
  St.modify (set_tags
               (Collections.Map_new (Collections.Object_entries tagsRes))) ;;
  St.modify (set_ready true) ;;
  St.ret true))))).

(** Every call of the service is fulfilled. *)
Definition allFulfilled (svc : Service.ZenoService sch) : Prop :=
  Service.getSettings svc <> None /\ Service.getInitialInfo svc <> None /\
  Service.getSlices svc <> None /\ Service.getReports svc <> None /\
  Service.getTags svc <> None.

End Stores.
End Util.

(* ================================================================== *)
(** * Properties of [getMetricRange] *)
(* ================================================================== *)

Section MetricRangeFacts.
Import MetricRange.

(** One visit: [res] is untouched, [range] is widened by the cell read
    as a number, and [allNull] falls on a cell that is not [null]. *)
Lemma visit_frame n f :
  snd (visit n f)
  = mkFrame (res f) (widen (range f) n) (allNull f && is_null n).
Proof.
  unfold visit, widen, is_null; destruct n; cbn.
  - now rewrite andb_false_r.
  - now rewrite andb_true_r.
Qed.

Lemma forEach_visit_frame arr : forall f,
  snd (St.forEach arr visit f)
  = mkFrame (res f) (fold_left widen arr (range f))
            (allNull f && forallb is_null arr).
Proof.
  induction arr as [|n arr IH]; intros f.
  - cbn. rewrite andb_true_r. now destruct f.
  - cbn [St.forEach]. unfold St.bind.
    destruct (visit n f) as [u f'] eqn:E.
    assert (F : f' = snd (visit n f)) by now rewrite E.
    rewrite IH, F, visit_frame. cbn. now rewrite andb_assoc.
Qed.

Lemma forEach_rows_frame m : forall f,
  snd (St.forEach m (fun arr => St.forEach arr visit) f)
  = mkFrame (res f) (fold_left widen_row m (range f))
            (allNull f && forallb (forallb is_null) m).
Proof.
  induction m as [|arr m IH]; intros f.
  - cbn. rewrite andb_true_r. now destruct f.
  - cbn [St.forEach]. unfold St.bind.
    destruct (St.forEach arr visit f) as [u f'] eqn:E.
    assert (F : f' = snd (St.forEach arr visit f)) by now rewrite E.
    rewrite IH, F, forEach_visit_frame. cbn. now rewrite andb_assoc.
Qed.

(** The result and the final store of the body, in terms of the store
    the two nested loops leave. *)
Lemma body_unfold f :
  let f' := snd (St.forEach (res f) (fun arr => St.forEach arr visit) f) in
  body f = ((if allNull f' then (Infinity, NegInfinity) else range f'), f').
Proof.
  unfold body, St.bind, St.gets; cbn.
  destruct (St.forEach (res f) _ f) as [u f']; cbn.
  destruct (allNull f'); reflexivity.
Qed.

Lemma res_after_id m : res_after m = m.
Proof.
  unfold res_after. rewrite body_unfold. cbn [snd].
  now rewrite forEach_rows_frame.
Qed.

(** [getMetricRange] as a fold: the sentinel when every cell is [null],
    and otherwise the pair widened by every cell, [null] ones too. *)
Lemma getMetricRange_fold m :
  getMetricRange m
  = if forallb (forallb is_null) m then (Infinity, NegInfinity)
    else fold_left widen_row m (Infinity, NegInfinity).
Proof.
  unfold getMetricRange. rewrite body_unfold. cbn [fst].
  now rewrite forEach_rows_frame.
Qed.

Lemma all_null_forallb m :
  all_null m <-> forallb (forallb is_null) m = true.
Proof.
  unfold all_null. rewrite forallb_forall. split.
  - intros H arr Ha. apply forallb_forall. intros n Hn.
    now rewrite (H arr Ha n Hn).
  - intros H arr Ha n Hn.
    specialize (H arr Ha). rewrite forallb_forall in H.
    specialize (H n Hn). now destruct n.
Qed.

Lemma has_value_forallb m :
  has_value m -> forallb (forallb is_null) m = false.
Proof.
  intros (arr & x & Ha & Hx).
  destruct (forallb (forallb is_null) m) eqn:E; [|reflexivity].
  apply all_null_forallb in E. discriminate (E arr Ha (Some x) Hx).
Qed.

Lemma has_value_zeroed m : has_value m -> has_value (zeroed m).
Proof.
  intros (arr & x & Ha & Hx).
  exists (map (fun n => Some (ToNumber n)) arr), x. split.
  - unfold zeroed. now apply in_map.
  - change (Some x) with ((fun n => Some (ToNumber n)) (Some x)).
    now apply in_map.
Qed.

Lemma fold_widen_zeroed_row arr : forall r,
  fold_left widen (map (fun n => Some (ToNumber n)) arr) r
  = fold_left widen arr r.
Proof. induction arr as [|n arr IH]; intros r; cbn; [reflexivity | apply IH]. Qed.

Lemma fold_widen_zeroed m : forall r,
  fold_left widen_row (zeroed m) r = fold_left widen_row m r.
Proof.
  induction m as [|arr m IH]; intros r; cbn; [reflexivity|].
  unfold widen_row at 2 4. now rewrite fold_widen_zeroed_row, IH.
Qed.

End MetricRangeFacts.

(** C1, evaluated on the code: a [null] cell enters [Math.min] and
    [Math.max] as [+0].  On the spec's own example [getMetricRange]
    returns [[0, 3]], not the pair [[1, 3]] of the smallest and largest
    non-null values; and in general, on a matrix with a non-null cell,
    it returns what it returns with [0] written in place of every
    [null]. *)
Theorem getMetricRange_null_counts_as_zero :
  getMetricRange [[Some (of_Z 1); null; Some (of_Z 3)]; [null; null; null]]
    = (pos_zero, of_Z 3)
  /\ getMetricRange [[Some (of_Z 1); null; Some (of_Z 3)]; [null; null; null]]
    <> (of_Z 1, of_Z 3)
  /\ forall m, has_value m -> getMetricRange m = getMetricRange (zeroed m).
Proof.
  split; [reflexivity|]. split; [discriminate|].
  intros m H. rewrite !getMetricRange_fold.
  rewrite (has_value_forallb m H).
  rewrite (has_value_forallb _ (has_value_zeroed m H)).
  now rewrite fold_widen_zeroed.
Qed.

Lemma getMetricRange_null_counts_as_zero_witness :
  has_value [[Some (of_Z 1); null]]
  /\ getMetricRange [[Some (of_Z 1); null]]
     = getMetricRange [[Some (of_Z 1); Some pos_zero]].
Proof.
  assert (H : has_value [[Some (of_Z 1); null]]).
  { exists [Some (of_Z 1); null], (of_Z 1). split; left; reflexivity. }
  split; [exact H|].
  exact (proj2 (proj2 getMetricRange_null_counts_as_zero) _ H).
Defined.

(** C5: for every matrix in which every cell is [null], [getMetricRange]
    returns the sentinel [[Infinity, -Infinity]]. *)
Theorem getMetricRange_all_null (m : list (list cell)) :
  all_null m -> getMetricRange m = (Infinity, NegInfinity).
Proof.
  intros H. rewrite getMetricRange_fold.
  now apply all_null_forallb in H as ->.
Qed.

Lemma getMetricRange_all_null_witness :
  all_null [[null; null]] /\
  getMetricRange [[null; null]] = (Infinity, NegInfinity).
Proof.
  assert (H : all_null [[null; null]]).
  { intros arr [<-|[]] n [<-|[<-|[]]]; reflexivity. }
  split; [exact H | exact (getMetricRange_all_null [[null; null]] H)].
Defined.

(* ================================================================== *)
(** * Properties of [columnHash] *)
(* ================================================================== *)

Section StringFacts.

Lemma append_empty_r (s : string) : s ++ "" = s.
Proof. induction s as [|a s IH]; cbn; [reflexivity | now rewrite IH]. Qed.

Lemma append_length (s t : string) :
  String.length (s ++ t) = String.length s + String.length t.
Proof. induction s as [|a s IH]; cbn; [reflexivity | now rewrite IH]. Qed.

Lemma append_assoc (s t u : string) : (s ++ t) ++ u = s ++ (t ++ u).
Proof. induction s as [|a s IH]; cbn; [reflexivity | now rewrite IH]. Qed.

Lemma append_cancel_l (s t u : string) : s ++ t = s ++ u -> t = u.
Proof.
  induction s as [|a s IH]; cbn; intros H; [exact H|].
  injection H as H. now apply IH.
Qed.

(** Two splits of one string at the same position agree. *)
Lemma append_same_length (s s' t t' : string) :
  String.length s = String.length s' ->
  s ++ t = s' ++ t' -> s = s' /\ t = t'.
Proof.
  revert s'. induction s as [|a s IH]; intros [|a' s'] L H;
    try discriminate.
  - now split.
  - cbn in L, H. injection H as -> H. injection L as L.
    destruct (IH s' L H) as [-> ->]. now split.
Qed.

Lemma append_cancel_r (s t u : string) : s ++ u = t ++ u -> s = t.
Proof.
  intros H. refine (proj1 (append_same_length s t u u _ H)).
  apply (f_equal String.length) in H. rewrite !append_length in H. lia.
Qed.

End StringFacts.

Section ColumnFacts.
Import Column.

Lemma body_reads_only col : body col = (columnHash col, col).
Proof.
  unfold columnHash, body, St.bind, St.gets, St.ret.
  destruct (strict_eq (columnType col) METADATA), (truthy (model col));
    reflexivity.
Qed.

Lemma js_or_empty (s : string) : js_or s "" = s.
Proof. unfold js_or, truthy. now destruct (String.eqb_spec s "") as [->|]. Qed.

Lemma columnHash_unfold col :
  columnHash col = normalizedType col ++ name col ++ model col.
Proof.
  destruct col as [t n m tr].
  unfold columnHash, body, St.bind, St.gets, St.ret, normalizedType, truthy.
  cbn [columnType name model].
  destruct t; cbn; destruct (String.eqb_spec m "") as [->|]; reflexivity.
Qed.

End ColumnFacts.

(** C4: [columnHash] returns the concatenation
    [(columnType == METADATA ? "" : columnType) + name + (model || "")]:
    the column type's string unless it is METADATA, then the name, then
    the model when it is non-empty. *)
Theorem columnHash_formula (col : Column.ZenoColumn) :
  Column.columnHash col = Column.columnHash_spec col
  /\ Column.columnHash col
     = (match Column.columnType col with
        | Column.METADATA => ""
        | t => Column.value t
        end)
       ++ Column.name col
       ++ (if String.eqb (Column.model col) "" then "" else Column.model col).
Proof.
  split.
  - rewrite columnHash_unfold. unfold Column.columnHash_spec.
    rewrite js_or_empty. unfold Column.normalizedType.
    now destruct (Column.columnType col).
  - rewrite columnHash_unfold. unfold Column.normalizedType.
    now destruct (String.eqb_spec (Column.model col) "") as [->|].
Qed.

(** C2, as stated, fails: the fields are concatenated with nothing
    between them, so two columns that differ in name and model can hash
    alike; and a METADATA column and an OUTPUT column of the same name
    hash differently. *)
Lemma columnHash_identity_counterexample :
  ~ (forall c1 c2 : Column.ZenoColumn,
       Column.columnHash c1 = Column.columnHash c2 <-> Column.identical c1 c2)
  /\ Column.columnHash (Column.mkColumn Column.METADATA "age" "" "")
     <> Column.columnHash (Column.mkColumn Column.OUTPUT "age" "" "").
Proof.
  split; [|discriminate].
  intros H.
  destruct (H (Column.mkColumn Column.OUTPUT "ab" "c" "")
              (Column.mkColumn Column.OUTPUT "a" "bc" "")) as [H1 _].
  destruct (H1 eq_refl) as (_ & Hname & _). discriminate Hname.
Qed.

(** C2, amended: columns that are identical under the rule hash alike;
    conversely, columns that hash alike and agree on two components of
    the triple (columnType-normalized, name, model) are identical, so
    columns that differ in exactly one component never collide.
    [{METADATA,"age","",""}] and [{OUTPUT,"age","",""}] hash
    differently, and so do [{OUTPUT,"x","modelA",""}] and
    [{OUTPUT,"x","modelB",""}]. *)
Theorem columnHash_identity :
  (forall c1 c2, Column.identical c1 c2 ->
     Column.columnHash c1 = Column.columnHash c2)
  /\ (forall c1 c2, Column.columnHash c1 = Column.columnHash c2 ->
        Column.agree_on_two c1 c2 -> Column.identical c1 c2)
  /\ Column.columnHash (Column.mkColumn Column.METADATA "age" "" "")
     <> Column.columnHash (Column.mkColumn Column.OUTPUT "age" "" "")
  /\ Column.columnHash (Column.mkColumn Column.OUTPUT "x" "modelA" "")
     <> Column.columnHash (Column.mkColumn Column.OUTPUT "x" "modelB" "").
Proof.
  split; [|split; [|split; discriminate]].
  - intros c1 c2 (Ht & Hn & Hm).
    rewrite !columnHash_unfold. now rewrite Ht, Hn, Hm.
  - intros c1 c2 H A. rewrite !columnHash_unfold in H.
    unfold Column.identical.
    destruct A as [[Ht Hn] | [[Ht Hm] | [Hn Hm]]].
    + rewrite Ht, Hn in H.
      apply append_cancel_l, append_cancel_l in H. auto.
    + rewrite Ht, Hm in H.
      apply append_cancel_l, append_cancel_r in H. auto.
    + rewrite Hn, Hm in H.
      apply append_cancel_r in H. auto.
Qed.

Lemma columnHash_identity_witness :
  let c1 := Column.mkColumn Column.OUTPUT "x" "modelA" "t1" in
  let c2 := Column.mkColumn Column.OUTPUT "x" "modelA" "t2" in
  Column.identical c1 c2
  /\ Column.columnHash c1 = Column.columnHash c2
  /\ Column.agree_on_two c1 c2.
Proof.
  intros c1 c2.
  assert (I : Column.identical c1 c2) by (repeat split).
  split; [exact I|]. split.
  - exact (proj1 columnHash_identity c1 c2 I).
  - left. split; reflexivity.
Defined.

(** C3, as stated, fails: the model is appended for METADATA columns
    too, so two METADATA columns of one name and different models hash
    differently. *)
Lemma columnHash_metadata_counterexample :
  ~ (forall c1 c2 : Column.ZenoColumn,
       Column.columnType c1 = Column.METADATA ->
       Column.columnType c2 = Column.METADATA ->
       Column.name c1 = Column.name c2 ->
       Column.columnHash c1 = Column.columnHash c2).
Proof.
  intros H.
  specialize (H (Column.mkColumn Column.METADATA "age" "modelA" "")
                (Column.mkColumn Column.METADATA "age" "modelB" "")
                eq_refl eq_refl eq_refl).
  discriminate H.
Qed.

(** C3, amended: two METADATA columns with equal names and equal models
    hash alike, whatever their transforms; the hash is the name followed
    by the model. *)
Theorem columnHash_metadata (c1 c2 : Column.ZenoColumn) :
  Column.columnType c1 = Column.METADATA ->
  Column.columnType c2 = Column.METADATA ->
  Column.name c1 = Column.name c2 ->
  Column.model c1 = Column.model c2 ->
  Column.columnHash c1 = Column.columnHash c2
  /\ Column.columnHash c1 = Column.name c1 ++ Column.model c1.
Proof.
  intros T1 T2 Hn Hm. rewrite !columnHash_unfold.
  unfold Column.normalizedType. rewrite T1, T2, Hn, Hm. now split.
Qed.

Lemma columnHash_metadata_witness :
  let c1 := Column.mkColumn Column.METADATA "age" "m" "" in
  let c2 := Column.mkColumn Column.METADATA "age" "m" "blur" in
  Column.columnHash c1 = Column.columnHash c2
  /\ Column.columnHash c1 = "agem".
Proof.
  intros c1 c2.
  exact (columnHash_metadata c1 c2 eq_refl eq_refl eq_refl eq_refl).
Defined.

(** C9: [getMetricRange] and [columnHash] leave the object their
    argument refers to as it was, and a second call, on what the first
    call left, returns what the first returned. *)
Theorem getMetricRange_columnHash_pure :
  (forall m : list (list cell),
     res_after m = m
     /\ getMetricRange (res_after m) = getMetricRange m)
  /\ (forall col : Column.ZenoColumn,
        Column.col_after col = col
        /\ Column.columnHash (Column.col_after col) = Column.columnHash col).
Proof.
  split.
  - intros m. now rewrite res_after_id.
  - intros col. unfold Column.col_after.
    rewrite body_reads_only. now split.
Qed.

(* ================================================================== *)
(** * Properties of [toKey] *)
(* ================================================================== *)

Section KeyFacts.
Import Key.
Variable delimiter : ascii.



End KeyFacts.




(* ================================================================== *)
(** * Properties of [evaluateExpression] *)
(* ================================================================== *)

Section FilterFacts.
Import Filter.
Variable Row : Type.
Variable evaluatePredicate : FilterPredicate -> Row -> Result bool.
Variable otherJoin : string -> bool -> bool -> bool.

Local Notation run := (Filter.run Row evaluatePredicate otherJoin).
Local Notation step := (Filter.step otherJoin).
Local Notation evaluateFold :=
  (Filter.evaluateFold Row evaluatePredicate otherJoin).
Local Notation evaluateExpression :=
  (Filter.evaluateExpression Row evaluatePredicate otherJoin).
Local Notation evaluable := (Filter.evaluable Row evaluatePredicate).

(** A step succeeds exactly when the marker fits the open groups, and
    then the stack follows the nesting depth. *)
Lemma step_depth p v st :
  match marker p, opened st with
  | GroupEnd, [] => step p v st = Fail UnbalancedGroup
  | m, _ =>
      exists st', step p v st = Ok st' /\
        List.length (opened st') =
          match m with
          | GroupStart => S (List.length (opened st))
          | GroupEnd => pred (List.length (opened st))
          | NoMarker => List.length (opened st)
          end
  end.
Proof.
  unfold Filter.step.
  destruct (marker p), (opened st) as [|g gs]; cbn;
    try reflexivity; eexists; split; reflexivity.
Qed.

(** When [run] returns, the markers were consistent so far, and the
    stack is as deep as the nesting. *)
Lemma run_depth ps row : forall st st',
  run ps row st = Ok st' ->
  nesting (List.length (opened st)) ps = Some (List.length (opened st')).
Proof.
  induction ps as [|p ps IH]; intros st st' H; cbn in H.
  - now injection H as ->.
  - destruct (evaluatePredicate p row) as [v|e]; [|discriminate].
    cbn in H. pose proof (step_depth p v st) as Hs.
    cbn [nesting].
    destruct (marker p) eqn:Em.
    + destruct Hs as (s1 & E1 & L1). rewrite E1 in H. cbn in H.
      rewrite <- L1. now apply IH.
    + destruct (opened st) as [|g gs] eqn:Eo.
      * rewrite Hs in H. discriminate.
      * destruct Hs as (s1 & E1 & L1). rewrite E1 in H. cbn in H.
        cbn in L1 |- *. rewrite <- L1. now apply IH.
    + destruct Hs as (s1 & E1 & L1). rewrite E1 in H. cbn in H.
      rewrite <- L1. now apply IH.
Qed.

(** With every comparison evaluable, [run] fails only on an [end]
    that closes nothing, and then with [UnbalancedGroup]. *)
Lemma run_total ps row : evaluable ps row -> forall st,
  match nesting (List.length (opened st)) ps with
  | Some d => exists st', run ps row st = Ok st'
  | None => run ps row st = Fail UnbalancedGroup
  end.
Proof.
  induction ps as [|p ps IH]; intros Hev st.
  - cbn. now exists st.
  - assert (Hev' : evaluable ps row) by (intros q Hq; apply Hev; now right).
    destruct (Hev p (or_introl eq_refl)) as [v Ev].
    cbn [Filter.run nesting]. rewrite Ev. cbn [andThen].
    pose proof (step_depth p v st) as Hs.
    destruct (marker p) eqn:Em.
    + destruct Hs as (s1 & E1 & L1). rewrite E1. cbn [andThen].
      rewrite <- L1. apply (IH Hev').
    + destruct (opened st) as [|g gs] eqn:Eo.
      * cbn. now rewrite Hs.
      * destruct Hs as (s1 & E1 & L1). rewrite E1. cbn [andThen].
        cbn in L1 |- *. rewrite <- L1. apply (IH Hev').
    + destruct Hs as (s1 & E1 & L1). rewrite E1. cbn [andThen].
      rewrite <- L1. apply (IH Hev').
Qed.

(** The fold finds by itself what the validation finds: with every
    comparison evaluable, it fails with [UnbalancedGroup] on a sequence
    that is not balanced. *)
Lemma evaluateFold_unbalanced ps row :
  balanced ps = false -> evaluable ps row ->
  evaluateFold ps row = Fail UnbalancedGroup.
Proof.
  intros B Hev. unfold Filter.evaluateFold.
  pose proof (run_total ps row Hev (mkEval None [])) as T.
  unfold balanced in B. cbn [opened List.length] in T.
  destruct (nesting 0 ps) as [d|] eqn:En.
  - destruct T as [st' E]. rewrite E. cbn [andThen].
    apply run_depth in E. cbn [opened List.length] in E.
    rewrite En in E. injection E as E.
    destruct (opened st') as [|g gs]; [|reflexivity].
    cbn in E. subst d. discriminate.
  - now rewrite T.
Qed.

Lemma evaluateFold_returns_balanced ps row v :
  evaluateFold ps row = Ok v -> balanced ps = true.
Proof.
  unfold Filter.evaluateFold, balanced. intros H.
  destruct (run ps row (mkEval None [])) as [st'|e] eqn:E; [|discriminate].
  apply run_depth in E. cbn [opened List.length] in E. rewrite E.
  cbn in H. destruct (opened st'); [reflexivity | discriminate].
Qed.

(** On a balanced sequence the validation passes and the result is the
    fold's. *)
Lemma evaluateExpression_balanced ps row :
  balanced ps = true -> evaluateExpression ps row = evaluateFold ps row.
Proof.
  intros B. unfold Filter.evaluateExpression, validateGroups. now rewrite B.
Qed.

(** A sequence that is not balanced is rejected before any comparison is
    evaluated. *)
Lemma evaluateExpression_rejects ps row :
  balanced ps = false -> evaluateExpression ps row = Fail UnbalancedGroup.
Proof.
  intros B. unfold Filter.evaluateExpression, validateGroups. now rewrite B.
Qed.

(** The nesting depth counts [start]s up and [end]s down. *)
Lemma nesting_counts ps : forall d d',
  nesting d ps = Some d' -> d + starts ps = d' + ends ps.
Proof.
  unfold starts, ends.
  induction ps as [|p ps IH]; intros d d' H; cbn in H |- *.
  - injection H as ->. lia.
  - destruct (marker p); cbn [List.length].
    + apply IH in H. lia.
    + destruct d as [|d]; [discriminate|]. apply IH in H. lia.
    + now apply IH.
Qed.

Lemma balanced_counts ps : balanced ps = true -> starts ps = ends ps.
Proof.
  unfold balanced. destruct (nesting 0 ps) as [[|d]|] eqn:E; try discriminate.
  intros _. now apply nesting_counts in E.
Qed.

Lemma evaluateExpression_example row A B C D a b c d :
  groupIndicator A = None ->
  join B = "OR" -> groupIndicator B = Some "start" ->
  join C = "AND" -> groupIndicator C = None ->
  join D = "AND" -> groupIndicator D = Some "end" ->
  evaluatePredicate A row = Ok a ->
  evaluatePredicate B row = Ok b ->
  evaluatePredicate C row = Ok c ->
  evaluatePredicate D row = Ok d ->
  evaluateExpression [A; B; C; D] row = Ok (a || (b && c && d)).
Proof.
  intros GA JB GB JC GC JD GD EA EB EC ED.
  unfold Filter.evaluateExpression, validateGroups, balanced, nesting,
    Filter.evaluateFold, Filter.run, Filter.step, marker.
  rewrite EA, EB, EC, ED, GA, GB, GC, GD, JB, JC, JD. reflexivity.
Qed.

End FilterFacts.

(** C6: whatever the row, the sequence
    [A(join=""), B(join=OR, start), C(join=AND), D(join=AND, end)]
    evaluates to [A OR (B AND C AND D)]; and a sequence whose group
    markers are inconsistent, in nesting or in the counts of [start]
    and [end], fails with [UnbalancedGroup], whatever its comparisons
    do. *)
Theorem evaluateExpression_grouping
  (Row : Type)
  (evaluatePredicate : Filter.FilterPredicate -> Row -> Filter.Result bool)
  (otherJoin : string -> bool -> bool -> bool) :
  (forall row A B C D a b c d,
     Filter.groupIndicator A = None ->
     Filter.join B = "OR" -> Filter.groupIndicator B = Some "start" ->
     Filter.join C = "AND" -> Filter.groupIndicator C = None ->
     Filter.join D = "AND" -> Filter.groupIndicator D = Some "end" ->
     evaluatePredicate A row = Filter.Ok a ->
     evaluatePredicate B row = Filter.Ok b ->
     evaluatePredicate C row = Filter.Ok c ->
     evaluatePredicate D row = Filter.Ok d ->
     Filter.evaluateExpression Row evaluatePredicate otherJoin [A; B; C; D] row
     = Filter.Ok (a || (b && c && d)))
  /\ (forall ps row,
        Filter.balanced ps = false ->
        Filter.evaluateExpression Row evaluatePredicate otherJoin ps row
        = Filter.Fail Filter.UnbalancedGroup)
  /\ (forall ps row,
        Filter.starts ps <> Filter.ends ps ->
        Filter.evaluateExpression Row evaluatePredicate otherJoin ps row
        = Filter.Fail Filter.UnbalancedGroup).
Proof.
  split; [|split].
  - intros. now apply evaluateExpression_example.
  - intros ps row B. now apply evaluateExpression_rejects.
  - intros ps row N. apply evaluateExpression_rejects.
    destruct (Filter.balanced ps) eqn:B; [|reflexivity].
    destruct N. now apply balanced_counts.
Qed.

Lemma evaluateExpression_grouping_witness :
  let ev := fun (p : Filter.FilterPredicate) (_ : unit) =>
              if String.eqb (Filter.operation p) "=="
              then Filter.Ok (String.eqb (Filter.value p) "yes")
              else Filter.Fail Filter.InvalidOperation in
  let oj := fun (_ : string) (l r : bool) => l in
  let P := Filter.mkPredicate (Column.mkColumn Column.METADATA "label" "" "") in
  Filter.evaluateExpression unit ev oj
    [P "==" "no" "" None; P "==" "yes" "OR" (Some "start");
     P "==" "yes" "AND" None; P "==" "yes" "AND" (Some "end")] tt
  = Filter.Ok true
  /\ Filter.evaluateExpression unit ev oj
       [P "~" "no" "" None; P "==" "yes" "OR" (Some "start")] tt
     = Filter.Fail Filter.UnbalancedGroup
  /\ Filter.evaluateExpression unit ev oj
       [P "~" "no" "" (Some "end"); P "==" "yes" "OR" (Some "end")] tt
     = Filter.Fail Filter.UnbalancedGroup.
Proof.
  intros ev oj P. split; [|split].
  - exact (proj1 (evaluateExpression_grouping unit ev oj) tt
             (P "==" "no" "" None) (P "==" "yes" "OR" (Some "start"))
             (P "==" "yes" "AND" None) (P "==" "yes" "AND" (Some "end"))
             false true true true
             eq_refl eq_refl eq_refl eq_refl eq_refl eq_refl eq_refl
             eq_refl eq_refl eq_refl eq_refl).
  - exact (proj1 (proj2 (evaluateExpression_grouping unit ev oj))
             [P "~" "no" "" None; P "==" "yes" "OR" (Some "start")] tt
             eq_refl).
  - apply (proj2 (proj2 (evaluateExpression_grouping unit ev oj))
             [P "~" "no" "" (Some "end"); P "==" "yes" "OR" (Some "end")] tt).
    cbn. discriminate.
Defined.

(** C7: on the empty predicate list [evaluateExpression] returns true,
    for every row. *)
Theorem evaluateExpression_empty
  (Row : Type)
  (evaluatePredicate : Filter.FilterPredicate -> Row -> Filter.Result bool)
  (otherJoin : string -> bool -> bool -> bool) (row : Row) :
  Filter.evaluateExpression Row evaluatePredicate otherJoin [] row
  = Filter.Ok true.
Proof. reflexivity. Qed.

(* ================================================================== *)
(** * Properties of [generateSpec] *)
(* ================================================================== *)

Section VegaFacts.
Import Vega.

Lemma get_set_prop_same n v ps : get_prop n (set_prop n v ps) = Some v.
Proof.
  induction ps as [|[k w] ps IH]; cbn.
  - now rewrite String.eqb_refl.
  - destruct (String.eqb k n) eqn:E; cbn; now rewrite E.
Qed.

Lemma get_set_prop_other n n' v ps :
  n <> n' -> get_prop n (set_prop n' v ps) = get_prop n ps.
Proof.
  intros N. assert (E : String.eqb n' n = false).
  { apply String.eqb_neq. congruence. }
  induction ps as [|[k w] ps IH]; cbn.
  - now rewrite E.
  - destruct (String.eqb_spec k n') as [->|Hk]; cbn.
    + now rewrite E.
    + now rewrite IH.
Qed.

Lemma nth_set_item_same i v : forall l l',
  set_item i v l = Some l' -> nth_error l' i = Some v.
Proof.
  induction i as [|i IH]; intros [|x l] l' H; cbn in H; try discriminate.
  - now injection H as <-.
  - now injection H as <-.
  - destruct (set_item i v l) as [r|] eqn:E; [|discriminate].
    injection H as <-. cbn. exact (IH l r E).
Qed.

Lemma nth_set_item_other i v : forall j l l',
  j <> i -> set_item i v l = Some l' -> nth_error l' j = nth_error l j.
Proof.
  induction i as [|i IH]; intros j [|x l] l' N H; cbn in H; try discriminate.
  - injection H as <-. destruct j as [|j]; [easy|]. now destruct j.
  - injection H as <-. destruct j; [easy | reflexivity].
  - destruct (set_item i v l) as [r|] eqn:E; [|discriminate].
    injection H as <-. destruct j as [|j]; [reflexivity|].
    cbn. apply IH; [congruence | exact E].
Qed.

Lemma member_set_same k v t t' :
  set_member k v t = Some t' -> member k t' = Some v.
Proof.
  destruct k as [n|i], t; cbn; try discriminate.
  - intros H. injection H as <-. apply get_set_prop_same.
  - destruct (set_item i v items) as [r|] eqn:E; [|discriminate].
    intros H. injection H as <-. cbn. now apply nth_set_item_same in E.
Qed.

Lemma member_set_other k k' v t t' :
  k <> k' -> set_member k' v t = Some t' -> member k t' = member k t.
Proof.
  intros N. destruct k' as [n'|i'], t; cbn; try discriminate.
  - intros H. injection H as <-. destruct k as [n|i]; [|reflexivity].
    cbn. apply get_set_prop_other. congruence.
  - destruct (set_item i' v items) as [r|] eqn:E; [|discriminate].
    intros H. injection H as <-. destruct k as [n|i]; [reflexivity|].
    cbn. apply (nth_set_item_other i' v i items r); [congruence | exact E].
Qed.

(** After an assignment, the assigned place holds the assigned value. *)
Lemma lookup_assign_same q v : forall t t',
  assign q v t = Some t' -> lookup q t' = Some v.
Proof.
  induction q as [|k q IH]; intros t t' H; [discriminate|].
  cbn in H. destruct q as [|k2 q].
  - cbn. now rewrite (member_set_same _ _ _ _ H).
  - destruct (member k t) as [c|]; [|discriminate].
    destruct (assign (k2 :: q) v c) as [c'|] eqn:E; [|discriminate].
    cbn [lookup]. rewrite (member_set_same _ _ _ _ H).
    now apply (IH c).
Qed.

(** An assignment leaves every unrelated place as it was. *)
Lemma lookup_assign_apart q v : forall p t t',
  assign q v t = Some t' -> apart p q -> lookup p t' = lookup p t.
Proof.
  induction q as [|k' q IH]; intros p t t' H A; [discriminate|].
  destruct p as [|k p]; [destruct A|].
  cbn in H. cbn [apart] in A. cbn [lookup].
  destruct q as [|k2 q].
  - destruct A as [N | [_ A]].
    + now rewrite (member_set_other k k' v t t' N H).
    + destruct p; destruct A.
  - destruct (member k' t) as [c|] eqn:Ec; [|discriminate].
    destruct (assign (k2 :: q) v c) as [c'|] eqn:E; [|discriminate].
    destruct A as [N | [-> A]].
    + now rewrite (member_set_other k k' c' t t' N H).
    + rewrite (member_set_same _ _ _ _ H), Ec.
      now apply (IH p c).
Qed.

(** The returned object, written out. *)
Lemma generateSpec_unfold m :
  generateSpec m =
  match literal with
  | VObj ps =>
      Some (VObj (set_prop "axes"
                    (arr [obj [("title", m); ("orient", str "bottom");
                               ("scale", str "xscale")]]) ps))
  | _ => None
  end.
Proof. reflexivity. Qed.

End VegaFacts.

(** C10: [generateSpec m] returns a spec whose only axis, the bottom
    one, has the title [m], and which is the same for every [m] at
    every place other than that title. *)
Theorem generateSpec_title (m : Vega.Value) :
  exists spec,
    Vega.generateSpec m = Some spec
    /\ Vega.lookup Vega.titlePath spec = Some m
    /\ Vega.lookup [Vega.Field "axes"] spec
       = Some (Vega.arr [Vega.obj [("title", m);
                                   ("orient", Vega.str "bottom");
                                   ("scale", Vega.str "xscale")]])
    /\ forall m' spec',
         Vega.generateSpec m' = Some spec' ->
         (forall p, Vega.apart p Vega.titlePath ->
                    Vega.lookup p spec = Vega.lookup p spec')
         /\ (forall x, Vega.assign Vega.titlePath x spec
                       = Vega.assign Vega.titlePath x spec').
Proof.
  destruct (Vega.generateSpec m) as [spec|] eqn:E; [|discriminate E].
  exists spec. split; [reflexivity|].
  split; [exact (lookup_assign_same _ _ _ _ E)|].
  split.
  - rewrite generateSpec_unfold in E. cbn in E. injection E as <-. reflexivity.
  - intros m' spec' E'. split.
    + intros p A.
      rewrite (lookup_assign_apart _ _ p _ _ E A).
      now rewrite (lookup_assign_apart _ _ p _ _ E' A).
    + intros x. rewrite generateSpec_unfold in E, E'. cbn in E, E'.
      injection E as <-. injection E' as <-. reflexivity.
Qed.

Lemma generateSpec_title_witness :
  exists spec spec',
    Vega.generateSpec (Vega.str "accuracy") = Some spec
    /\ Vega.generateSpec (Vega.str "f1") = Some spec'
    /\ Vega.lookup [Vega.Field "marks"; Vega.Index 0; Vega.Field "type"] spec
       = Vega.lookup [Vega.Field "marks"; Vega.Index 0; Vega.Field "type"] spec'.
Proof.
  destruct (generateSpec_title (Vega.str "accuracy")) as (spec & E & _ & _ & H).
  destruct (Vega.generateSpec (Vega.str "f1")) as [spec'|] eqn:E';
    [|discriminate E'].
  exists spec, spec'. split; [exact E|]. split; [reflexivity|].
  apply (proj1 (H (Vega.str "f1") spec' E')).
  left. discriminate.
Defined.

(* ================================================================== *)
(** * The order of numbers, and what [Math.min] and [Math.max] pick *)
(* ================================================================== *)

Section NumberOrderFacts.
Import MatrixShape.

Ltac cmp_cases :=
  repeat match goal with
  | |- context [Z.compare ?a ?b] => destruct (Z.compare_spec a b)
  | H : context [Z.compare ?a ?b] |- _ => destruct (Z.compare_spec a b)
  | |- context [Pos.compare_cont Eq ?a ?b] =>
      change (Pos.compare_cont Eq a b) with (Pos.compare a b);
      destruct (Pos.compare_spec a b)
  | H : context [Pos.compare_cont Eq ?a ?b] |- _ =>
      change (Pos.compare_cont Eq a b) with (Pos.compare a b) in H;
      destruct (Pos.compare_spec a b)
  end.

Lemma leq_trans x y z : leq x y -> leq y z -> leq x z.
Proof.
  unfold leq, SFleb, SFcompare.
  destruct x as [[]|[]| |[] mx ex], y as [[]|[]| |[] my ey],
           z as [[]|[]| |[] mz ez]; cbn; try easy;
    intros H1 H2; cmp_cases; subst; cbn in *; try easy; try lia.
Qed.

Lemma leq_refl x : x <> NaN -> leq x x.
Proof.
  unfold leq, SFleb, SFcompare.
  destruct x as [[]|[]| |[] mx ex]; cbn; try easy; intros _;
    rewrite Z.compare_refl;
    change (Pos.compare_cont Eq mx mx) with (Pos.compare mx mx);
    now rewrite Pos.compare_refl.
Qed.

Lemma not_less_leq x y :
  x <> NaN -> y <> NaN -> SFltb y x = false -> leq x y.
Proof.
  unfold leq, SFleb, SFltb, SFcompare.
  destruct x as [[]|[]| |[] mx ex], y as [[]|[]| |[] my ey]; cbn; try easy;
    intros _ _ H; cmp_cases; subst; cbn in *; try easy; try lia.
Qed.

Lemma less_leq x y : SFltb x y = true -> leq x y.
Proof.
  unfold leq, SFleb, SFltb. now destruct (SFcompare x y) as [[]|].
Qed.

Lemma leq_Infinity x : leq Infinity x -> x = Infinity.
Proof. unfold leq. destruct x as [[]|[]| |[] mx ex]; cbn; easy. Qed.

Lemma leq_NegInfinity x : leq x NegInfinity -> x = NegInfinity.
Proof. unfold leq. destruct x as [[]|[]| |[] mx ex]; cbn; easy. Qed.

Lemma is_nan_false x : x <> NaN -> is_nan x = false.
Proof. destruct x; cbn; easy. Qed.

(** On numbers, [Math.min] returns one of its arguments, below both. *)
Lemma Math_min_picks a b :
  a <> NaN -> b <> NaN ->
  (Math_min a b = a \/ Math_min a b = b)
  /\ leq (Math_min a b) a /\ leq (Math_min a b) b.
Proof.
  intros Ha Hb. unfold Math_min.
  rewrite (is_nan_false a Ha), (is_nan_false b Hb). cbn [orb].
  destruct (is_neg_zero b && is_pos_zero a) eqn:Z.
  - split; [now right|]. split; [|now apply leq_refl].
    destruct a as [[]|[]| |[] ? ?], b as [[]|[]| |[] ? ?]; easy.
  - destruct (SFltb b a) eqn:L.
    + split; [now right|]. split; [now apply less_leq | now apply leq_refl].
    + split; [now left|]. split; [now apply leq_refl | now apply not_less_leq].
Qed.

(** On numbers, [Math.max] returns one of its arguments, above both. *)
Lemma Math_max_picks a b :
  a <> NaN -> b <> NaN ->
  (Math_max a b = a \/ Math_max a b = b)
  /\ leq a (Math_max a b) /\ leq b (Math_max a b).
Proof.
  intros Ha Hb. unfold Math_max.
  rewrite (is_nan_false a Ha), (is_nan_false b Hb). cbn [orb].
  destruct (is_pos_zero b && is_neg_zero a) eqn:Z.
  - split; [now right|]. split; [|now apply leq_refl].
    destruct a as [[]|[]| |[] ? ?], b as [[]|[]| |[] ? ?]; easy.
  - destruct (SFltb a b) eqn:L.
    + split; [now right|]. split; [now apply less_leq | now apply leq_refl].
    + split; [now left|]. split; [now apply leq_refl | now apply not_less_leq].
Qed.

Lemma Math_min_NaN_r a : Math_min a NaN = NaN.
Proof. unfold Math_min. cbn. now rewrite orb_true_r. Qed.

Lemma Math_max_NaN_r a : Math_max a NaN = NaN.
Proof. unfold Math_max. cbn. now rewrite orb_true_r. Qed.

End NumberOrderFacts.

(* ================================================================== *)
(** * [getMetricRange] over the cells in reading order *)
(* ================================================================== *)

Section MetricRangeOrderFacts.
Import MetricRange MatrixShape.

Lemma fold_widen_rows m : forall r,
  fold_left widen_row m r = fold_left widen (List.concat m) r.
Proof.
  induction m as [|arr m IH]; intros r; cbn; [reflexivity|].
  rewrite fold_left_app. apply IH.
Qed.

Lemma forallb_rows m :
  forallb (forallb is_null) m = forallb is_null (List.concat m).
Proof.
  induction m as [|arr m IH]; cbn; [reflexivity|].
  now rewrite forallb_app, IH.
Qed.

(** [getMetricRange] reads the matrix as one sequence of cells. *)
Lemma getMetricRange_cells m :
  getMetricRange m
  = if forallb is_null (List.concat m) then (Infinity, NegInfinity)
    else fold_left widen (List.concat m) (Infinity, NegInfinity).
Proof. now rewrite getMetricRange_fold, forallb_rows, fold_widen_rows. Qed.

Lemma fold_widen_fst cs : forall r,
  fst (fold_left widen cs r)
  = fold_left (fun a c => Math_min a (ToNumber c)) cs (fst r).
Proof. induction cs as [|c cs IH]; intros r; cbn; [reflexivity | now rewrite IH]. Qed.

Lemma fold_widen_snd cs : forall r,
  snd (fold_left widen cs r)
  = fold_left (fun a c => Math_max a (ToNumber c)) cs (snd r).
Proof. induction cs as [|c cs IH]; intros r; cbn; [reflexivity | now rewrite IH]. Qed.

Lemma ToNumber_number c : c <> Some NaN -> ToNumber c <> NaN.
Proof. destruct c as [x|]; cbn; [congruence | discriminate]. Qed.

(** The running minimum: a number below the start and below every cell
    read, and either the start or one of the cells. *)
Lemma running_min cs : forall a,
  a <> NaN -> (forall c, In c cs -> c <> Some NaN) ->
  let a' := fold_left (fun a c => Math_min a (ToNumber c)) cs a in
  a' <> NaN /\ leq a' a
  /\ (forall c, In c cs -> leq a' (ToNumber c))
  /\ (a' = a \/ exists c, In c cs /\ a' = ToNumber c).
Proof.
  induction cs as [|c cs IH]; intros a Ha Hcs; cbn.
  - repeat split; [exact Ha | now apply leq_refl | easy | now left].
  - assert (Hc : ToNumber c <> NaN) by (apply ToNumber_number, Hcs; now left).
    destruct (Math_min_picks a (ToNumber c) Ha Hc) as (P & La & Lc).
    assert (H1 : Math_min a (ToNumber c) <> NaN) by (destruct P as [-> | ->]; easy).
    destruct (IH _ H1 (fun d Hd => Hcs d (or_intror Hd))) as (N & L & B & A).
    split; [exact N|]. split; [exact (leq_trans _ _ _ L La)|]. split.
    + intros d [<- | Hd]; [exact (leq_trans _ _ _ L Lc) | now apply B].
    + destruct A as [A | (d & Hd & A)].
      * destruct P as [P | P]; rewrite A, P; [now left|].
        right. exists c. split; [now left | reflexivity].
      * right. exists d. split; [now right | exact A].
Qed.

(** The running maximum, likewise. *)
Lemma running_max cs : forall a,
  a <> NaN -> (forall c, In c cs -> c <> Some NaN) ->
  let a' := fold_left (fun a c => Math_max a (ToNumber c)) cs a in
  a' <> NaN /\ leq a a'
  /\ (forall c, In c cs -> leq (ToNumber c) a')
  /\ (a' = a \/ exists c, In c cs /\ a' = ToNumber c).
Proof.
  induction cs as [|c cs IH]; intros a Ha Hcs; cbn.
  - repeat split; [exact Ha | now apply leq_refl | easy | now left].
  - assert (Hc : ToNumber c <> NaN) by (apply ToNumber_number, Hcs; now left).
    destruct (Math_max_picks a (ToNumber c) Ha Hc) as (P & La & Lc).
    assert (H1 : Math_max a (ToNumber c) <> NaN) by (destruct P as [-> | ->]; easy).
    destruct (IH _ H1 (fun d Hd => Hcs d (or_intror Hd))) as (N & L & B & A).
    split; [exact N|]. split; [exact (leq_trans _ _ _ La L)|]. split.
    + intros d [<- | Hd]; [exact (leq_trans _ _ _ Lc L) | now apply B].
    + destruct A as [A | (d & Hd & A)].
      * destruct P as [P | P]; rewrite A, P; [now left|].
        right. exists c. split; [now left | reflexivity].
      * right. exists d. split; [now right | exact A].
Qed.

Lemma fold_widen_NaN cs : fold_left widen cs (NaN, NaN) = (NaN, NaN).
Proof. induction cs as [|c cs IH]; cbn; [reflexivity | exact IH]. Qed.

Lemma in_cells (m : list (list cell)) (c : cell) :
  In c (List.concat m) <-> exists arr, In arr m /\ In c arr.
Proof.
  rewrite in_concat. split; intros (arr & H1 & H2); exists arr; now split.
Qed.

Lemma no_nan_cells m :
  no_nan m -> forall c, In c (List.concat m) -> c <> Some NaN.
Proof.
  intros H c Hc ->. apply in_cells in Hc as (arr & Ha & Hc).
  exact (H arr Ha Hc).
Qed.

Lemma some_value_not_all_null cs x :
  In (Some x) cs -> forallb is_null cs = false.
Proof.
  intros H. destruct (forallb is_null cs) eqn:E; [|reflexivity].
  rewrite forallb_forall in E. discriminate (E _ H).
Qed.

Lemma not_all_null_some_value cs :
  forallb is_null cs = false -> exists x, In (Some x) cs.
Proof.
  induction cs as [|[x|] cs IH]; cbn; [discriminate | | ].
  - intros _. exists x. now left.
  - intros H. destruct (IH H) as [x Hx]. exists x. now right.
Qed.

(** Either some cell is NaN or none is. *)
Lemma nan_cell_or_not cs :
  In (Some NaN) cs \/ (forall c, In c cs -> c <> Some NaN).
Proof.
  induction cs as [|c cs [IH | IH]].
  - right. easy.
  - left. now right.
  - destruct c as [[]|]; try (right; intros d [<- | Hd];
      [discriminate | now apply IH]).
    left. now left.
Qed.

(** From a NaN cell on, the pair is [(NaN, NaN)]. *)
Lemma fold_widen_nan_cell cs : forall r,
  In (Some NaN) cs -> fold_left widen cs r = (NaN, NaN).
Proof.
  intros r H. apply in_split in H as (l1 & l2 & ->).
  rewrite fold_left_app. cbn. unfold widen at 2. cbn [ToNumber].
  rewrite Math_min_NaN_r, Math_max_NaN_r. apply fold_widen_NaN.
Qed.

(** The returned pair on a matrix with a value and without NaN. *)
Lemma getMetricRange_running m x :
  cell_of m x -> no_nan m ->
  fst (getMetricRange m)
    = fold_left (fun a c => Math_min a (ToNumber c)) (List.concat m) Infinity
  /\ snd (getMetricRange m)
    = fold_left (fun a c => Math_max a (ToNumber c)) (List.concat m) NegInfinity.
Proof.
  intros (arr & Ha & Hx) _. rewrite getMetricRange_cells.
  rewrite (some_value_not_all_null (List.concat m) x)
    by (apply in_cells; now exists arr).
  now rewrite fold_widen_fst, fold_widen_snd.
Qed.

End MetricRangeOrderFacts.

(** X1: [getMetricRange] does not see the rows: it returns on a matrix
    what it returns on the single row of all its cells in reading
    order. *)
Theorem getMetricRange_flat (m : list (list cell)) :
  getMetricRange m = getMetricRange [List.concat m].
Proof.
  rewrite !getMetricRange_cells. cbn [List.concat].
  now rewrite app_nil_r.
Qed.

(** X2: on a matrix without NaN, every non-null cell lies between the
    two numbers [getMetricRange] returns. *)
Theorem getMetricRange_bounds (m : list (list cell)) (x : number) :
  MatrixShape.no_nan m -> MatrixShape.cell_of m x ->
  MatrixShape.leq (fst (getMetricRange m)) x
  /\ MatrixShape.leq x (snd (getMetricRange m)).
Proof.
  intros N C. destruct (getMetricRange_running m x C N) as [-> ->].
  assert (Hx : In (Some x) (List.concat m)) by now apply in_cells.
  pose proof (no_nan_cells m N) as Hc.
  split.
  - destruct (running_min (List.concat m) Infinity) as (_ & _ & B & _);
      [discriminate | exact Hc | exact (B _ Hx)].
  - destruct (running_max (List.concat m) NegInfinity) as (_ & _ & B & _);
      [discriminate | exact Hc | exact (B _ Hx)].
Qed.

Lemma getMetricRange_bounds_witness :
  let m := [[Some (of_Z 2); Some (of_Z 7)]; [Some (of_Z 5)]] in
  MatrixShape.no_nan m /\ MatrixShape.cell_of m (of_Z 5)
  /\ MatrixShape.leq (fst (getMetricRange m)) (of_Z 5)
  /\ MatrixShape.leq (of_Z 5) (snd (getMetricRange m)).
Proof.
  intros m.
  assert (N : MatrixShape.no_nan m).
  { intros arr [<- | [<- | []]] H; cbn in H;
      repeat (destruct H as [H | H]; [discriminate H|]); exact H. }
  assert (C : MatrixShape.cell_of m (of_Z 5)).
  { exists [Some (of_Z 5)]. split; [right; now left | now left]. }
  split; [exact N|]. split; [exact C|].
  exact (getMetricRange_bounds m (of_Z 5) N C).
Defined.

(** X3: on a matrix with a cell, without [null] and without NaN, the two
    numbers [getMetricRange] returns are cells of the matrix; with X2
    they are its least and its greatest cell. *)
Theorem getMetricRange_attained (m : list (list cell)) (x : number) :
  MatrixShape.no_null m -> MatrixShape.no_nan m -> MatrixShape.cell_of m x ->
  MatrixShape.cell_of m (fst (getMetricRange m))
  /\ MatrixShape.cell_of m (snd (getMetricRange m)).
Proof.
  intros Z N C.
  destruct (getMetricRange_running m x C N) as [E1 E2].
  pose proof (no_nan_cells m N) as Hc.
  assert (Hx : In (Some x) (List.concat m)) by now apply in_cells.
  assert (Lo : MatrixShape.leq (fst (getMetricRange m)) x).
  { rewrite E1.
    destruct (running_min (List.concat m) Infinity) as (_ & _ & B & _);
      [discriminate | exact Hc | exact (B _ Hx)]. }
  assert (Hi : MatrixShape.leq x (snd (getMetricRange m))).
  { rewrite E2.
    destruct (running_max (List.concat m) NegInfinity) as (_ & _ & B & _);
      [discriminate | exact Hc | exact (B _ Hx)]. }
  assert (V : forall c, In c (List.concat m) ->
                        MatrixShape.cell_of m (ToNumber c)).
  { intros [y|] Hy; apply in_cells in Hy as (arr & Ha & Hy).
    - now exists arr.
    - destruct (Z arr Ha Hy). }
  split.
  - destruct (running_min (List.concat m) Infinity) as (_ & _ & _ & A);
      [discriminate | exact Hc |].
    rewrite <- E1 in A. destruct A as [A | (c & Hin & A)].
    + rewrite A in Lo |- *. now rewrite <- (leq_Infinity x Lo).
    + rewrite A. now apply V.
  - destruct (running_max (List.concat m) NegInfinity) as (_ & _ & _ & A);
      [discriminate | exact Hc |].
    rewrite <- E2 in A. destruct A as [A | (c & Hin & A)].
    + rewrite A in Hi |- *. now rewrite <- (leq_NegInfinity x Hi).
    + rewrite A. now apply V.
Qed.

Lemma getMetricRange_attained_witness :
  let m := [[Some (of_Z 2); Some (of_Z 7)]; [Some (of_Z 5)]] in
  MatrixShape.cell_of m (fst (getMetricRange m))
  /\ MatrixShape.cell_of m (snd (getMetricRange m))
  /\ getMetricRange m = (of_Z 2, of_Z 7).
Proof.
  intros m.
  assert (Z : MatrixShape.no_null m).
  { intros arr [<- | [<- | []]] H; cbn in H;
      repeat (destruct H as [H | H]; [discriminate H|]); exact H. }
  assert (N : MatrixShape.no_nan m).
  { intros arr [<- | [<- | []]] H; cbn in H;
      repeat (destruct H as [H | H]; [discriminate H|]); exact H. }
  assert (C : MatrixShape.cell_of m (of_Z 5)).
  { exists [Some (of_Z 5)]. split; [right; now left | now left]. }
  destruct (getMetricRange_attained m (of_Z 5) Z N C) as [A B].
  split; [exact A|]. split; [exact B | reflexivity].
Defined.

(** X4: on a matrix without NaN that has a [null] cell beside a
    non-null one, the returned range contains 0, whatever the values
    are. *)
Theorem getMetricRange_zero_in_range (m : list (list cell)) (x : number) :
  MatrixShape.no_nan m -> MatrixShape.cell_of m x ->
  (exists arr, In arr m /\ In null arr) ->
  MatrixShape.leq (fst (getMetricRange m)) pos_zero
  /\ MatrixShape.leq pos_zero (snd (getMetricRange m)).
Proof.
  intros N C (arr & Ha & Hn).
  destruct (getMetricRange_running m x C N) as [-> ->].
  assert (H0 : In null (List.concat m)) by (apply in_cells; now exists arr).
  pose proof (no_nan_cells m N) as Hc.
  split.
  - destruct (running_min (List.concat m) Infinity) as (_ & _ & B & _);
      [discriminate | exact Hc | exact (B _ H0)].
  - destruct (running_max (List.concat m) NegInfinity) as (_ & _ & B & _);
      [discriminate | exact Hc | exact (B _ H0)].
Qed.

Lemma getMetricRange_zero_in_range_witness :
  let m := [[Some (of_Z 2); null]; [Some (of_Z 5)]] in
  MatrixShape.leq (fst (getMetricRange m)) pos_zero
  /\ MatrixShape.leq pos_zero (snd (getMetricRange m))
  /\ getMetricRange m = (pos_zero, of_Z 5).
Proof.
  intros m.
  assert (N : MatrixShape.no_nan m).
  { intros arr [<- | [<- | []]] H; cbn in H;
      repeat (destruct H as [H | H]; [discriminate H|]); exact H. }
  assert (C : MatrixShape.cell_of m (of_Z 5)).
  { exists [Some (of_Z 5)]. split; [right; now left | now left]. }
  assert (Z : exists arr, In arr m /\ In null arr).
  { exists [Some (of_Z 2); null]. split; [now left | right; now left]. }
  destruct (getMetricRange_zero_in_range m (of_Z 5) N C Z) as [A B].
  split; [exact A|]. split; [exact B | reflexivity].
Defined.

(** X5: one NaN cell makes both returned numbers NaN. *)
Theorem getMetricRange_nan (m : list (list cell)) :
  MatrixShape.cell_of m NaN -> getMetricRange m = (NaN, NaN).
Proof.
  intros (arr & Ha & Hx).
  assert (H : In (Some NaN) (List.concat m)) by (apply in_cells; now exists arr).
  rewrite getMetricRange_cells.
  rewrite (some_value_not_all_null _ _ H).
  now apply fold_widen_nan_cell.
Qed.

Lemma getMetricRange_nan_witness :
  let m := [[Some (of_Z 2); Some NaN]; [Some (of_Z 5); null]] in
  MatrixShape.cell_of m NaN /\ getMetricRange m = (NaN, NaN).
Proof.
  intros m.
  assert (C : MatrixShape.cell_of m NaN).
  { exists [Some (of_Z 2); Some NaN]. split; [now left | right; now left]. }
  split; [exact C | exact (getMetricRange_nan m C)].
Defined.

(** X6: the pair [[Infinity, -Infinity]] is returned for the matrices in
    which every cell is [null] and for no other: a caller that finds it
    knows there was no value. *)
Theorem getMetricRange_sentinel_iff (m : list (list cell)) :
  getMetricRange m = (Infinity, NegInfinity) <-> all_null m.
Proof.
  split.
  - intros E. apply all_null_forallb. rewrite forallb_rows.
    destruct (forallb is_null (List.concat m)) eqn:F; [reflexivity|].
    exfalso. destruct (not_all_null_some_value _ F) as [x Hx].
    assert (C : MatrixShape.cell_of m x) by now apply in_cells.
    destruct (nan_cell_or_not (List.concat m)) as [Hn | Hn].
    + assert (Cn : MatrixShape.cell_of m NaN) by now apply in_cells.
      rewrite getMetricRange_cells, F, (fold_widen_nan_cell _ _ Hn) in E.
      discriminate E.
    + assert (N : MatrixShape.no_nan m).
      { intros arr Ha Hc. apply (Hn (Some NaN)); [|reflexivity].
        apply in_cells. now exists arr. }
      destruct (getMetricRange_running m x C N) as [E1 E2].
      rewrite E in E1, E2. cbn [fst snd] in E1, E2.
      destruct (running_min (List.concat m) Infinity) as (_ & _ & B & _);
        [discriminate | exact Hn |].
      destruct (running_max (List.concat m) NegInfinity) as (_ & _ & B' & _);
        [discriminate | exact Hn |].
      specialize (B _ Hx). specialize (B' _ Hx).
      rewrite <- E1 in B. rewrite <- E2 in B'. cbn [ToNumber] in B, B'.
      apply leq_Infinity in B. apply leq_NegInfinity in B'.
      rewrite B in B'. discriminate B'.
  - intros H. rewrite getMetricRange_fold.
    now apply all_null_forallb in H as ->.
Qed.

(* ================================================================== *)
(** * Properties of [updateTab] and [getInitialData] *)
(* ================================================================== *)

Section CollectionsFacts.
Import Collections.
Context {V : Type}.

Lemma Map_set_fresh (k : string) (v : V) (m : JsMap V) :
  ~ In k (List.map fst m) -> Map_set k v m = (m ++ [(k, v)])%list.
Proof.
  induction m as [|[k' w] m IH]; cbn; intros H; [reflexivity|].
  destruct (String.eqb_spec k' k) as [->|N].
  - destruct H. now left.
  - rewrite IH; [reflexivity|]. intros Hin. apply H. now right.
Qed.

Lemma Map_new_from (es : list (string * V)) : forall acc : JsMap V,
  NoDup (List.map fst (acc ++ es)%list) ->
  fold_left (fun m kv => Map_set (fst kv) (snd kv) m) es acc
  = (acc ++ es)%list.
Proof.
  induction es as [|[k v] es IH]; intros acc H; cbn.
  - now rewrite app_nil_r.
  - rewrite Map_set_fresh.
    + rewrite IH; rewrite <- app_assoc; [reflexivity | exact H].
    + rewrite map_app in H. cbn in H.
      apply NoDup_remove_2 in H. intros Hin. apply H.
      apply in_or_app. now left.
Qed.

(** A map built from the entries of an object has the object's
    properties, in their order. *)
Lemma Map_new_entries (o : Obj V) :
  wellFormed o -> Map_new (Object_entries o) = o.
Proof. intros H. unfold Map_new, Object_entries. now rewrite Map_new_from. Qed.

End CollectionsFacts.

Section UtilFacts.
Import Util.
Variable sch : Service.Schema.

Lemma updateTab_final t (w : World sch) :
  snd (updateTab sch t w)
  = set_tab sch t
      (set_location_hash sch
         (if String.eqb t "home" then "" else "#/" ++ t ++ "/") w).
Proof. unfold updateTab, St.bind, St.modify. now destruct (String.eqb t "home"). Qed.

End UtilFacts.

(** X7: [updateTab] writes the tab store and the location hash and
    nothing else, and what it writes depends on its argument only: of
    two calls in a row the second alone shows. *)
Theorem updateTab_overrides (sch : Service.Schema) (t t' : string)
  (w : Util.World sch) :
  let w1 := snd (Util.updateTab sch t w) in
  Util.tab sch w1 = t
  /\ Util.set_tab sch (Util.tab sch w)
       (Util.set_location_hash sch (Util.location_hash sch w) w1) = w
  /\ snd (Util.updateTab sch t (snd (Util.updateTab sch t' w))) = w1.
Proof.
  cbn zeta. rewrite !updateTab_final. destruct w. repeat split.
Qed.

(** X8: the location hash [updateTab] writes tells the tab: it is empty
    for the tab "home" and for no other, and two tabs with one hash are
    one tab. *)
Theorem updateTab_hash_injective (sch : Service.Schema) (t1 t2 : string)
  (w1 w2 : Util.World sch) :
  (Util.location_hash sch (snd (Util.updateTab sch t1 w1)) = ""
   <-> t1 = "home")
  /\ (Util.location_hash sch (snd (Util.updateTab sch t1 w1))
      = Util.location_hash sch (snd (Util.updateTab sch t2 w2))
      -> t1 = t2).
Proof.
  rewrite !updateTab_final. cbn. split.
  - destruct (String.eqb_spec t1 "home") as [->|N]; [easy|].
    split; [discriminate | easy].
  - destruct (String.eqb_spec t1 "home") as [->|N1],
             (String.eqb_spec t2 "home") as [->|N2];
      try easy; try discriminate.
    intros H.
    apply (append_cancel_l "#/") in H. now apply append_cancel_r in H.
Qed.

Lemma updateTab_hash_injective_witness :
  let sch := Service.mkSchema unit unit unit unit unit (fun _ => pos_zero) in
  let w := Util.mkWorld sch "" tt "" [] "" [] false tt pos_zero tt [] "home" [] in
  let w' := snd (Util.updateTab sch "home" w) in
  Util.location_hash sch (snd (Util.updateTab sch "report" w))
  = Util.location_hash sch (snd (Util.updateTab sch "report" w'))
  /\ "report" = "report".
Proof.
  intros sch w w'. split; [reflexivity|].
  exact (proj2 (updateTab_hash_injective sch "report" "report" w w') eq_refl).
Defined.

Section InitialDataFacts.
Import Util.
Variable sch : Service.Schema.

(** The stores after [getInitialData] when every call is fulfilled. *)
Lemma getInitialData_fulfilled sets inits slicesRes reportsRes tagsRes
  (w : World sch) :
  getInitialData sch
    (Service.mkService sch (Some sets) (Some inits) (Some slicesRes)
       (Some reportsRes) (Some tagsRes)) w
  = (true,
     mkWorld sch (location_hash sch w) (Service.folders inits)
       (first_or_empty (Service.metrics inits)) (Service.metrics inits)
       (first_or_empty (Service.models inits)) (Service.models inits)
       true reportsRes (Service.samples sch sets) sets
       (Collections.Map_new (Collections.Object_entries slicesRes))
       (tab sch w)
       (Collections.Map_new (Collections.Object_entries tagsRes))).
Proof. reflexivity. Qed.

Lemma allFulfilled_inv (svc : Service.ZenoService sch) :
  allFulfilled sch svc ->
  exists sets inits slicesRes reportsRes tagsRes,
    svc = Service.mkService sch (Some sets) (Some inits) (Some slicesRes)
            (Some reportsRes) (Some tagsRes).
Proof.
  destruct svc as [[a|] [b|] [c|] [d|] [e|]];
    intros (H1 & H2 & H3 & H4 & H5); cbn in *; try congruence.
  now exists a, b, c, d, e.
Qed.

Lemma first_or_empty_hd (a : list string) :
  first_or_empty a = List.hd "" a.
Proof. now destruct a. Qed.

Lemma first_or_empty_member (a : list string) :
  In (first_or_empty a) a \/ (a = [] /\ first_or_empty a = "").
Proof. destruct a as [|x a]; [now right | left; now left]. Qed.

End InitialDataFacts.

(** X9: started with the store [ready] false, [getInitialData] leaves it
    true exactly when all five calls of the service were fulfilled, and
    that is exactly when its own promise is fulfilled. *)
Theorem getInitialData_ready (sch : Service.Schema)
  (svc : Service.ZenoService sch) (w : Util.World sch) :
  Util.ready sch w = false ->
  (Util.ready sch (snd (Util.getInitialData sch svc w)) = true
   <-> Util.allFulfilled sch svc)
  /\ (fst (Util.getInitialData sch svc w) = true
      <-> Util.allFulfilled sch svc).
Proof.
  intros R. unfold Util.allFulfilled.
  destruct svc as [[a|] [b|] [c|] [d|] [e|]]; cbn; rewrite ?R;
    split; split; intros H;
    try discriminate H; try reflexivity;
    try (repeat split; discriminate);
    destruct H as (H1 & H2 & H3 & H4 & H5); congruence.
Qed.

Lemma getInitialData_ready_witness :
  let sch := Service.mkSchema unit unit unit unit unit (fun _ => of_Z 30) in
  let w := Util.mkWorld sch "" tt "" [] "" [] false tt pos_zero tt [] "home" [] in
  let svc := Service.mkService sch (Some tt)
               (Some (Service.mkInfo sch ["m1"; "m2"] ["accuracy"] tt))
               (Some [("overall", tt)]) None (Some []) in
  Util.ready sch w = false
  /\ ~ Util.allFulfilled sch svc
  /\ Util.ready sch (snd (Util.getInitialData sch svc w)) <> true.
Proof.
  intros sch w svc.
  assert (R : Util.ready sch w = false) by reflexivity.
  assert (N : ~ Util.allFulfilled sch svc).
  { intros (_ & _ & _ & H & _). now apply H. }
  split; [exact R|]. split; [exact N|].
  intros H. apply N.
  exact (proj1 (proj1 (getInitialData_ready sch svc w R)) H).
Defined.

(** X10: [getInitialData] never writes the tab store or the location
    hash; and when the first call, [getSettings], is rejected, it writes
    nothing at all. *)
Theorem getInitialData_frame (sch : Service.Schema)
  (svc : Service.ZenoService sch) (w : Util.World sch) :
  Util.tab sch (snd (Util.getInitialData sch svc w)) = Util.tab sch w
  /\ Util.location_hash sch (snd (Util.getInitialData sch svc w))
     = Util.location_hash sch w
  /\ (Service.getSettings svc = None ->
      Util.getInitialData sch svc w = (false, w)).
Proof.
  destruct svc as [[a|] [b|] [c|] [d|] [e|]]; cbn;
    (split; [reflexivity|]); (split; [reflexivity|]);
    first [discriminate | reflexivity | intros _; reflexivity].
Qed.

Lemma getInitialData_frame_witness :
  let sch := Service.mkSchema unit unit unit unit unit (fun _ => of_Z 30) in
  let w := Util.mkWorld sch "#/report/" tt "" [] "" [] false tt pos_zero tt []
             "report" [] in
  let svc := Service.mkService sch None
               (Some (Service.mkInfo sch ["m1"] ["accuracy"] tt))
               (Some []) (Some tt) (Some []) in
  Util.getInitialData sch svc w = (false, w).
Proof.
  intros sch w svc.
  exact (proj2 (proj2 (getInitialData_frame sch svc w)) eq_refl).
Defined.

(** X11: once [getSettings] and [getInitialInfo] are fulfilled, whatever
    the later calls do, the store [model] holds the first element of
    the list in the store [models], and the empty string when that list
    is empty, so it is a member of the list whenever there is one;
    likewise [metric] and [metrics]; and [rowsPerPage] holds
    [sets.samples]. *)
Theorem getInitialData_selection (sch : Service.Schema)
  (svc : Service.ZenoService sch) (w : Util.World sch)
  (sets : Service.ZenoSettings sch) (inits : Service.InitialInfo sch) :
  Service.getSettings svc = Some sets ->
  Service.getInitialInfo svc = Some inits ->
  let w' := snd (Util.getInitialData sch svc w) in
  Util.models sch w' = Service.models inits
  /\ Util.metrics sch w' = Service.metrics inits
  /\ Util.model sch w' = List.hd "" (Util.models sch w')
  /\ Util.metric sch w' = List.hd "" (Util.metrics sch w')
  /\ (In (Util.model sch w') (Util.models sch w')
      \/ (Util.models sch w' = [] /\ Util.model sch w' = ""))
  /\ (In (Util.metric sch w') (Util.metrics sch w')
      \/ (Util.metrics sch w' = [] /\ Util.metric sch w' = ""))
  /\ Util.rowsPerPage sch w' = Service.samples sch sets.
Proof.
  intros Hs Hi. destruct svc as [gs gi [c|] [d|] [e|]]; cbn in Hs, Hi;
    subst gs gi; cbn;
    (split; [reflexivity|]); (split; [reflexivity|]);
    (split; [apply first_or_empty_hd|]);
    (split; [apply first_or_empty_hd|]);
    (split; [apply first_or_empty_member|]);
    (split; [apply first_or_empty_member | reflexivity]).
Qed.

Lemma getInitialData_selection_witness :
  let sch := Service.mkSchema unit unit unit unit unit (fun _ => of_Z 30) in
  let w := Util.mkWorld sch "" tt "old" [] "old" [] false tt pos_zero tt [] "home" [] in
  let svc := Service.mkService sch (Some tt)
               (Some (Service.mkInfo sch ["m1"; "m2"] [] tt))
               None (Some tt) (Some []) in
  let w' := snd (Util.getInitialData sch svc w) in
  Util.model sch w' = "m1" /\ Util.metric sch w' = ""
  /\ Util.rowsPerPage sch w' = of_Z 30.
Proof.
  intros sch w svc w'.
  pose proof (getInitialData_selection sch svc w tt
                (Service.mkInfo sch ["m1"; "m2"] [] tt) eq_refl eq_refl)
    as (_ & _ & Hm & Hc & _ & _ & H).
  split; [exact Hm|]. split; [exact Hc | exact H].
Defined.

(** X12: when every call is fulfilled, the stores [getInitialData]
    leaves are decided by what the service returned, but for the tab
    store and the location hash, which it keeps; so a second run with
    the same answers changes nothing. *)
Theorem getInitialData_overwrites (sch : Service.Schema)
  (svc : Service.ZenoService sch) (w w' : Util.World sch) :
  Util.allFulfilled sch svc ->
  (Util.tab sch w = Util.tab sch w' ->
   Util.location_hash sch w = Util.location_hash sch w' ->
   snd (Util.getInitialData sch svc w) = snd (Util.getInitialData sch svc w'))
  /\ snd (Util.getInitialData sch svc (snd (Util.getInitialData sch svc w)))
     = snd (Util.getInitialData sch svc w).
Proof.
  intros F.
  destruct (allFulfilled_inv sch svc F) as (a & b & c & d & e & ->).
  rewrite !getInitialData_fulfilled. cbn [snd]. split.
  - intros -> ->. reflexivity.
  - reflexivity.
Qed.

Lemma getInitialData_overwrites_witness :
  let sch := Service.mkSchema unit unit unit unit unit (fun _ => of_Z 30) in
  let w := Util.mkWorld sch "" tt "old" [] "old" ["x"] false tt pos_zero tt []
             "home" [] in
  let svc := Service.mkService sch (Some tt)
               (Some (Service.mkInfo sch ["m1"; "m2"] ["accuracy"] tt))
               (Some [("overall", tt)]) (Some tt) (Some []) in
  Util.allFulfilled sch svc
  /\ snd (Util.getInitialData sch svc (snd (Util.getInitialData sch svc w)))
     = snd (Util.getInitialData sch svc w).
Proof.
  intros sch w svc.
  assert (F : Util.allFulfilled sch svc) by (repeat split; discriminate).
  split; [exact F|].
  exact (proj2 (getInitialData_overwrites sch svc w w F)).
Defined.

(** X13: the store [slices] becomes a map with the properties of the
    object [getSlices] returned, in their order: [slices.get(k)] is the
    object's own property [k]; and so for [tags] when all calls are
    fulfilled. *)
Theorem getInitialData_slices (sch : Service.Schema)
  (svc : Service.ZenoService sch) (w : Util.World sch)
  (sets : Service.ZenoSettings sch) (inits : Service.InitialInfo sch)
  (slicesRes : Collections.Obj (Service.SliceT sch)) :
  Service.getSettings svc = Some sets ->
  Service.getInitialInfo svc = Some inits ->
  Service.getSlices svc = Some slicesRes ->
  Collections.wellFormed slicesRes ->
  let w' := snd (Util.getInitialData sch svc w) in
  Util.slices sch w' = slicesRes
  /\ (forall k, Collections.Map_get k (Util.slices sch w')
                = Collections.Obj_get k slicesRes)
  /\ (forall reportsRes tagsRes,
        Service.getReports svc = Some reportsRes ->
        Service.getTags svc = Some tagsRes ->
        Collections.wellFormed tagsRes ->
        Util.tags sch w' = tagsRes).
Proof.
  intros Hs Hi Hl WF.
  destruct svc as [gs gi gl gr gt]; cbn in Hs, Hi, Hl; subst gs gi gl.
  assert (E : Util.slices sch
                (snd (Util.getInitialData sch
                        (Service.mkService sch (Some sets) (Some inits)
                           (Some slicesRes) gr gt) w)) = slicesRes).
  { destruct gr, gt; cbn; now apply Map_new_entries. }
  cbn zeta. split; [exact E|]. split.
  - intros k. rewrite E. reflexivity.
  - intros r t Hr Ht WT. cbn in Hr, Ht. subst gr gt. cbn.
    now apply Map_new_entries.
Qed.

Lemma getInitialData_slices_witness :
  let sch := Service.mkSchema unit unit nat unit unit (fun _ => of_Z 30) in
  let w := Util.mkWorld sch "" tt "" [] "" [] false tt pos_zero tt [] "home" [] in
  let o := [("overall", 1%nat); ("short", 2%nat)] in
  let svc := Service.mkService sch (Some tt)
               (Some (Service.mkInfo sch ["m1"] ["accuracy"] tt))
               (Some o) None None in
  Collections.wellFormed o
  /\ Collections.Map_get "short"
       (Util.slices sch (snd (Util.getInitialData sch svc w))) = Some 2%nat.
Proof.
  intros sch w o svc.
  assert (WF : Collections.wellFormed o).
  { unfold Collections.wellFormed. cbn.
    constructor; [intros [H | []]; discriminate H|].
    constructor; [intros [] | constructor]. }
  split; [exact WF|].
  rewrite (proj1 (proj2 (getInitialData_slices sch svc w tt
             (Service.mkInfo sch ["m1"] ["accuracy"] tt) o
             eq_refl eq_refl eq_refl WF)) "short").
  reflexivity.
Defined.

(** X14: [columnHash] does not keep column types apart: the hash of any
    column is also the hash of a METADATA column with the same model,
    whose name is the column-type prefix followed by the name. *)
Theorem columnHash_shadowed (col : Column.ZenoColumn) :
  exists col',
    Column.columnType col' = Column.METADATA
    /\ Column.model col' = Column.model col
    /\ Column.name col' = Column.normalizedType col ++ Column.name col
    /\ Column.columnHash col' = Column.columnHash col.
Proof.
  exists (Column.mkColumn Column.METADATA
            (Column.normalizedType col ++ Column.name col)
            (Column.model col) (Column.transform col)).
  repeat split. rewrite !columnHash_unfold. cbn.
  now rewrite append_assoc.
Qed.

(** X15: rows added to a matrix never narrow the range: without NaN,
    the range of the longer matrix encloses the range of the shorter
    one. *)
Theorem getMetricRange_widens (m m' : list (list cell)) :
  MatrixShape.no_nan m -> MatrixShape.no_nan m' ->
  MatrixShape.leq (fst (getMetricRange (m ++ m')%list)) (fst (getMetricRange m))
  /\ MatrixShape.leq (snd (getMetricRange m))
       (snd (getMetricRange (m ++ m')%list)).
Proof.
  intros N N'. rewrite !getMetricRange_cells, concat_app, forallb_app.
  pose proof (no_nan_cells m N) as Hc. pose proof (no_nan_cells m' N') as Hc'.
  destruct (running_min (List.concat m) Infinity) as (Nm & Lm & _);
    [discriminate | exact Hc |].
  destruct (running_max (List.concat m) NegInfinity) as (NM & LM & _);
    [discriminate | exact Hc |].
  destruct (running_min (List.concat m') _ Nm Hc') as (_ & Lm' & _).
  destruct (running_max (List.concat m') _ NM Hc') as (_ & LM' & _).
  rewrite fold_left_app.
  destruct (forallb is_null (List.concat m)) eqn:F; cbn [andb].
  - destruct (forallb is_null (List.concat m')); cbn [fst snd].
    + split; now apply leq_refl.
    + repeat (rewrite fold_widen_fst || rewrite fold_widen_snd; cbn [fst snd]).
      split.
      * exact (leq_trans _ _ _ Lm' Lm).
      * exact (leq_trans _ _ _ LM LM').
  - repeat (rewrite fold_widen_fst || rewrite fold_widen_snd; cbn [fst snd]).
    now split.
Qed.

Lemma getMetricRange_widens_witness :
  let m := [[Some (of_Z 2); Some (of_Z 5)]] in
  let m' := [[Some (of_Z 7)]; [Some (of_Z 1)]] in
  MatrixShape.leq (fst (getMetricRange (m ++ m')%list)) (of_Z 2)
  /\ MatrixShape.leq (of_Z 5) (snd (getMetricRange (m ++ m')%list))
  /\ getMetricRange (m ++ m')%list = (of_Z 1, of_Z 7).
Proof.
  intros m m'.
  assert (N : MatrixShape.no_nan m).
  { intros arr [<- | []] H; cbn in H;
      repeat (destruct H as [H | H]; [discriminate H|]); exact H. }
  assert (N' : MatrixShape.no_nan m').
  { intros arr [<- | [<- | []]] H; cbn in H;
      repeat (destruct H as [H | H]; [discriminate H|]); exact H. }
  destruct (getMetricRange_widens m m' N N') as [A B].
  split; [exact A|]. split; [exact B | reflexivity].
Defined.

(** X16: [updateTab] and [getInitialData] write different stores, so
    the order of a call of each does not matter for the stores they
    leave. *)
Theorem updateTab_getInitialData_commute (sch : Service.Schema)
  (svc : Service.ZenoService sch) (t : string) (w : Util.World sch) :
  snd (Util.updateTab sch t (snd (Util.getInitialData sch svc w)))
  = snd (Util.getInitialData sch svc (snd (Util.updateTab sch t w)))
  /\ fst (Util.getInitialData sch svc (snd (Util.updateTab sch t w)))
     = fst (Util.getInitialData sch svc w).
Proof.
  rewrite !updateTab_final.
  destruct svc as [[a|] [b|] [c|] [d|] [e|]]; split; reflexivity.
Qed.
